(** * openelex.base.publish: locating baked result files and publishing them

    A shallow embedding of [openelex/base/publish.py].  Python [str] values
    are byte strings ([string]); the functions of [posixpath], [glob] and the
    [str] methods the module calls are embedded next to it, following the
    CPython 2.7 library the module was written for.  Code that may raise
    returns a [result]; code that talks to the outside world (signals, the
    local file being read, the GitHub repository) runs in a monad that logs
    every outgoing call and asks a [World] for its outcome. *)

From Stdlib Require Import String Ascii List ZArith Lia Bool.
Import ListNotations.
Open Scope list_scope.
Open Scope string_scope.

(** ** Python byte strings *)

Module Str.

(** [c in s] *)
Fixpoint mem (c : ascii) (s : string) : bool :=
  match s with
  | EmptyString => false
  | String a s' => Ascii.eqb a c || mem c s'
  end.

(** [s.rfind(c)] for a one-character [c]: index of the last occurrence,
    [-1] when there is none. *)
Fixpoint rfind (s : string) (c : ascii) : Z :=
  match s with
  | EmptyString => (-1)%Z
  | String a s' =>
      let r := rfind s' c in
      if (0 <=? r)%Z then (r + 1)%Z
      else if Ascii.eqb a c then 0%Z else (-1)%Z
  end.

Fixpoint take (n : nat) (s : string) : string :=
  match n, s with
  | S n', String a s' => String a (take n' s')
  | _, _ => EmptyString
  end.

Fixpoint drop (n : nat) (s : string) : string :=
  match n, s with
  | S n', String _ s' => drop n' s'
  | _, _ => s
  end.

(** [s[:i]] and [s[i:]]; every index the module computes is non-negative. *)
Definition slice_to (s : string) (i : Z) : string := take (Z.to_nat i) s.
Definition slice_from (s : string) (i : Z) : string := drop (Z.to_nat i) s.

(** [s[i:i+1]] *)
Definition slice1 (s : string) (i : Z) : string := take 1 (slice_from s i).

(** [s.startswith(t)] and [s.endswith(t)] *)
Definition startswith (s t : string) : bool := String.prefix t s.

Definition endswith (s t : string) : bool :=
  (String.length t <=? String.length s)%nat
  && String.eqb (drop (String.length s - String.length t) s) t.

(** [c * n] *)
Fixpoint repeat (c : ascii) (n : nat) : string :=
  match n with
  | O => EmptyString
  | S n' => String c (repeat c n')
  end.

(** [s.rstrip(c)] for a one-character [c]. *)
Fixpoint rstrip (s : string) (c : ascii) : string :=
  match s with
  | EmptyString => EmptyString
  | String a s' =>
      match rstrip s' c with
      | EmptyString => if Ascii.eqb a c then EmptyString else String a EmptyString
      | r => String a r
      end
  end.

Definition lower_char (c : ascii) : ascii :=
  let n := nat_of_ascii c in
  if ((65 <=? n) && (n <=? 90))%nat then ascii_of_nat (n + 32) else c.

Definition upper_char (c : ascii) : ascii :=
  let n := nat_of_ascii c in
  if ((97 <=? n) && (n <=? 122))%nat then ascii_of_nat (n - 32) else c.

(** [s.lower()] and [s.upper()] on a byte string *)
Fixpoint lower (s : string) : string :=
  match s with
  | EmptyString => EmptyString
  | String a s' => String (lower_char a) (lower s')
  end.

Fixpoint upper (s : string) : string :=
  match s with
  | EmptyString => EmptyString
  | String a s' => String (upper_char a) (upper s')
  end.

(** Two strings that differ at most in the case of their letters. *)
Definition same_letter (a b : ascii) : Prop :=
  a = b \/ upper_char a = b \/ a = upper_char b.

Inductive same_modulo_case : string -> string -> Prop :=
| smc_nil : same_modulo_case EmptyString EmptyString
| smc_cons a b s t :
    same_letter a b -> same_modulo_case s t ->
    same_modulo_case (String a s) (String b t).

(** Truth value of a string: [bool(s)] *)
Definition truthy (s : string) : bool :=
  match s with EmptyString => false | _ => true end.

End Str.

(** ** posixpath *)

Module posixpath.

Definition sep : ascii := "/"%char.
Definition extsep : ascii := "."%char.

(** [posixpath.join(a, b)] *)
Definition join (a b : string) : string :=
  if Str.startswith b "/" then b
  else if negb (Str.truthy a) || Str.endswith a "/" then a ++ b
  else a ++ "/" ++ b.

(** [posixpath.split(p)] *)
Definition split (p : string) : string * string :=
  let i := (Str.rfind p sep + 1)%Z in
  let head := Str.slice_to p i in
  let tail := Str.slice_from p i in
  let head :=
    if Str.truthy head && negb (String.eqb head (Str.repeat sep (String.length head)))
    then Str.rstrip head sep else head in
  (head, tail).

(** [posixpath.basename(p)] *)
Definition basename (p : string) : string :=
  let i := (Str.rfind p sep + 1)%Z in
  Str.slice_from p i.

(** The [while] loop of [genericpath._splitext]: scan indices
    [filenameIndex .. dotIndex-1] for a character that is not a dot. *)
Fixpoint leading_dots_only (p : string) (filenameIndex : Z) (steps : nat) : bool :=
  match steps with
  | O => true
  | S k =>
      if negb (String.eqb (Str.slice1 p filenameIndex) (String extsep EmptyString))
      then false
      else leading_dots_only p (filenameIndex + 1) k
  end.

(** [posixpath.splitext(p)] *)
Definition splitext (p : string) : string * string :=
  let sepIndex := Str.rfind p sep in
  let dotIndex := Str.rfind p extsep in
  if (sepIndex <? dotIndex)%Z then
    let filenameIndex := (sepIndex + 1)%Z in
    if leading_dots_only p filenameIndex (Z.to_nat (dotIndex - filenameIndex))
    then (p, EmptyString)
    else (Str.slice_to p dotIndex, Str.slice_from p dotIndex)
  else (p, EmptyString).

End posixpath.

(** ** Exceptions and results *)

Inductive exn : Type :=
| TypeError (msg : string)
| NotImplementedError (msg : string)
| IndexError (msg : string)
| RuntimeError (msg : string)
| OSError (path : string)
| IOError (path : string)
| ExternalError (msg : string).

Inductive result (A : Type) : Type :=
| Ok (a : A)
| Raise (e : exn).

Arguments Ok {A} a.
Arguments Raise {A} e.

Module Exc.

Definition ret {A} (a : A) : result A := Ok a.

Definition bind {A B} (m : result A) (k : A -> result B) : result B :=
  match m with
  | Ok a => k a
  | Raise e => Raise e
  end.

(** [for x in xs: ys = f(x); acc.extend(ys)] *)
Fixpoint extend_each {A B} (f : A -> result (list B)) (xs : list A)
         (acc : list B) : result (list B) :=
  match xs with
  | [] => Ok acc
  | x :: xs' => bind (f x) (fun ys => extend_each f xs' (acc ++ ys))
  end.

End Exc.

Declare Scope exc_scope.
Delimit Scope exc_scope with exc.
Notation "x <- m ;; k" := (Exc.bind m (fun x => k))
  (at level 61, m at next level, right associativity) : exc_scope.

(** ** The Python object model, as far as [BasePublisher.publish] needs it *)

Module Py.

Inductive object : Type :=
| NotImplemented                       (* the builtin singleton *)
| NotImplementedError_class            (* the builtin exception class *)
| str (s : string)
| exception (e : exn).

(** [f(arg)]: only classes are callable here; the singleton
    [NotImplemented] is an instance of [NotImplementedType], which defines
    no [__call__]. *)
Definition call (f : object) (arg : string) : result object :=
  match f with
  | NotImplementedError_class => Ok (exception (NotImplementedError arg))
  | NotImplemented =>
      Raise (TypeError "'NotImplementedType' object is not callable")
  | str _ => Raise (TypeError "'str' object is not callable")
  | exception _ => Raise (TypeError "exception object is not callable")
  end.

(** [raise o] *)
Definition raise_ {A} (o : object) : result A :=
  match o with
  | exception e => Raise e
  | _ => Raise (TypeError "exceptions must derive from BaseException")
  end.

(** [s[0]] *)
Definition getitem0 (s : string) : result ascii :=
  match s with
  | EmptyString => Raise (IndexError "string index out of range")
  | String c _ => Ok c
  end.

End Py.

(** ** The host the module runs on

    [COUNTRY_DIR] is the constant the module imports from the [openelex]
    package.  The local file system is seen through the three calls [glob]
    makes: [os.listdir], [os.path.lexists] and [os.path.isdir].
    [os.listdir] returns the names in a directory or raises: [OSError]
    ([os.error]) when the directory is missing, is not a directory or cannot
    be read, and other exceptions for a path it refuses, such as one that
    holds a NUL byte.  [os.path.lexists] and [os.path.isdir] answer [False]
    when their system call raises [os.error], and let any other exception
    through, again as for a path that holds a NUL byte.  A directory listing
    never contains an empty name.
    [fnmatch name pat] is the shell-pattern matcher behind [fnmatch.filter].
    [recursion_limit] is the number of nested calls the interpreter still
    allows when [glob.glob] is entered. *)

Record Host : Type := {
  COUNTRY_DIR : string;
  listdir : string -> result (list string);
  lexists : string -> result bool;
  isdir : string -> result bool;
  fnmatch : string -> string -> bool;
  recursion_limit : nat;
  listdir_names :
    forall d names, listdir d = Ok names ->
                    Forall (fun x => x <> EmptyString) names
}.




(** ** glob *)

Module glob.

Definition curdir : string := ".".

(** [magic_check = re.compile('[*?[]')] *)
Definition has_magic (s : string) : bool :=
  Str.mem "*" s || Str.mem "?" s || Str.mem "[" s.

(** [filter(lambda x: x[0] != '.', names)] *)
Fixpoint not_hidden (names : list string) : result (list string) :=
  match names with
  | [] => Ok []
  | x :: rest =>
      (c <- Py.getitem0 x ;;
       keep <- not_hidden rest ;;
       Ok (if negb (Ascii.eqb c ".") then x :: keep else keep))%exc
  end.

Section Glob.

Variable host : Host.

(** [fnmatch.filter(names, pat)] *)
Definition fnmatch_filter (names : list string) (pat : string) : list string :=
  filter (fun name => fnmatch host name pat) names.

Definition glob1 (dirname pattern : string) : result (list string) :=
  let dirname := if negb (Str.truthy dirname) then curdir else dirname in
  match listdir host dirname with
  | Raise (OSError _) => Ok []
  | Raise e => Raise e
  | Ok names =>
      (c <- Py.getitem0 pattern ;;
       names <- (if negb (Ascii.eqb c ".") then not_hidden names else Ok names) ;;
       Ok (fnmatch_filter names pattern))%exc
  end.

Definition glob0 (dirname basename : string) : result (list string) :=
  if String.eqb basename "" then
    (found <- isdir host dirname ;;
     Ok (if found then [basename] else []))%exc
  else
    (found <- lexists host (posixpath.join dirname basename) ;;
     Ok (if found then [basename] else []))%exc.

(** A call that returns a list or raises, seen as a generator: the names
    it yields and the exception that ends it, if any. *)
Definition yield_all (r : result (list string)) : list string * option exn :=
  match r with
  | Ok names => (names, None)
  | Raise e => ([], Some e)
  end.

(** [for dirname in dirs: for name in f(dirname): yield name], where the
    generator [dirs] yields the directories [dirs] and then ends, with the
    exception [pending] if any.  A directory is worked on as soon as it is
    yielded, so an exception of [f] comes before [pending]. *)
Fixpoint yield_each (f : string -> result (list string)) (dirs : list string)
         (pending : option exn) (acc : list string)
  : list string * option exn :=
  match dirs with
  | [] => (acc, pending)
  | dirname :: rest =>
      match f dirname with
      | Ok names => yield_each f rest pending (acc ++ names)
      | Raise e => (acc, Some e)
      end
  end.

(** [iglob], a generator: the names it yields and the exception that ends
    it, if any.  The recursive call on the directory part is bounded by
    [fuel], and running out of it is the interpreter's recursion error. *)
Fixpoint iglob (fuel : nat) (pathname : string) : list string * option exn :=
  let '(dirname, basename) := posixpath.split pathname in
  if negb (has_magic pathname) then
    if Str.truthy basename then
      yield_all (found <- lexists host pathname ;;
                 Ok (if found then [pathname] else []))%exc
    else
      yield_all (found <- isdir host dirname ;;
                 Ok (if found then [pathname] else []))%exc
  else if negb (Str.truthy dirname) then
    yield_all (glob1 curdir basename)
  else
    let '(dirs, pending) :=
      if negb (String.eqb dirname pathname) && has_magic dirname then
        match fuel with
        | O => ([], Some (RuntimeError "maximum recursion depth exceeded"))
        | S fuel' => iglob fuel' dirname
        end
      else ([dirname], None) in
    let glob_in_dir := if has_magic basename then glob1 else glob0 in
    yield_each
      (fun dirname =>
         names <- glob_in_dir dirname basename ;;
         Ok (map (fun name => posixpath.join dirname name) names))%exc
      dirs pending [].

(** [glob.glob(pathname)], that is [list(iglob(pathname))], entered with
    [recursion_limit] nested calls left: the names yielded, unless the
    generator ends with an exception. *)
Definition glob (pathname : string) : result (list string) :=
  match iglob (recursion_limit host) pathname with
  | (names, None) => Ok names
  | (_, Some e) => Raise e
  end.

End Glob.

End glob.

(** ** Module constants *)

Definition RAW_PREFIX : string := "raw".
Definition CLEAN_PREFIX : string := "clean".

(** ** class ResultFileFinder *)

Module ResultFileFinder.

(** [build_glob]; [datefilter] is [None] or a string. *)
Definition build_glob (state search_dir ext : string)
           (datefilter : option string) (raw : bool) : string :=
  let filename_bits : list string := [] in
  let datefilter_bit :=
    match datefilter with
    | Some d =>
        if Str.truthy d then
          if (String.length d <? 6)%nat then d ++ "*" else d
        else "*"
    | None => "*"
    end in
  let filename_bits := (filename_bits ++ [datefilter_bit])%list in
  let filename_bits := (filename_bits ++ [state])%list in
  let filename_bits := (filename_bits ++ ["*"])%list in
  let filename_bits :=
    if raw then (filename_bits ++ [RAW_PREFIX])%list else filename_bits in
  let filename_glob := String.concat "__" filename_bits ++ ext in
  let pathname := posixpath.join search_dir filename_glob in
  pathname.

(** The date-filter segment in the specification's words: the filter
    with a trailing wildcard if shorter than 6 characters, a bare wildcard
    if no filter is given. *)
Definition spec_date_segment (datefilter : option string) : string :=
  match datefilter with
  | Some d => if (String.length d <? 6)%nat then d ++ "*" else d
  | None => "*"
  end.

Section Finder.

Variable host : Host.

(** [results_dir] *)
Definition results_dir : string :=
  posixpath.join (COUNTRY_DIR host) "bakery".

(** [get_filenames] *)
Definition get_filenames (state : string) (datefilter : option string)
           (raw : bool) (search_dir : option string) : result (list string) :=
  let filenames : list string := [] in
  let extensions := [".csv"; ".json"] in
  let search_dir :=
    match search_dir with
    | None => results_dir
    | Some d => d
    end in
  Exc.extend_each
    (fun ext =>
       let glob_s := build_glob state search_dir ext datefilter raw in
       glob.glob host glob_s)
    extensions filenames.

End Finder.

End ResultFileFinder.

(** ** class BasePublisher *)

Module BasePublisher.

Definition get_filenames (host : Host) (state : string)
           (datefilter : option string) (raw : bool)
           (search_dir : option string) : result (list string) :=
  ResultFileFinder.get_filenames host state datefilter raw search_dir.

(** [publish]: [raise NotImplemented("...")] first evaluates the call
    [NotImplemented("...")], then raises its value. *)
Definition publish (state : string) (datefilter : option string)
           (raw : bool) : result unit :=
  (e <- Py.call Py.NotImplemented "You must implement this method in a subclass" ;;
   Py.raise_ e)%exc.

End BasePublisher.

(** ** The outside world

    Every call that leaves the module is logged as an [event], in the order
    it is made.  The [World] decides how each call ends given the calls made
    so far: it may raise, return nothing the module uses, return the text of
    a local file, or return the entries of a repository tree. *)

(** [github3.git.Hash]: one entry of a repository tree *)
Record Hash : Type := { path : string; sha : string }.

(** [github3.repos.repo.Repository] *)
Record Repository : Type := { owner : string; name : string }.

Inductive event : Type :=
| Login (username password : string)          (* github3.login *)
| GetRepository (owner name : string)         (* gh.repository *)
| Send (signal sender filename : string)      (* blinker signal(...).send *)
| Open (filename mode : string)               (* open(filename, mode) *)
| Read (filename : string)                    (* f.read() *)
| Close (filename : string)                   (* leaving the with block *)
| GetTree (repo : Repository) (branch : string)          (* repo.tree(branch) *)
| Recurse (repo : Repository) (branch : string)          (* tree.recurse() *)
| UpdateFile (repo : Repository) (path message content sha : string)
| CreateFile (repo : Repository) (path message content : string)
| Merge (repo : Repository) (base head : string).

Definition trace : Type := list event.

Record World : Type := {
  respond : trace -> event -> result unit;
  file_text : trace -> string -> result string;
  tree_entries : trace -> Repository -> string -> result (list Hash)
}.

(** How the world ends a call, forgetting what it returns. *)
Definition outcome (w : World) (tr : trace) (ev : event) : result unit :=
  match ev with
  | Read filename =>
      match file_text w tr filename with Ok _ => Ok tt | Raise e => Raise e end
  | Recurse repo branch =>
      match tree_entries w tr repo branch with Ok _ => Ok tt | Raise e => Raise e end
  | Close _ => Ok tt
  | _ => respond w tr ev
  end.

Definition is_write (ev : event) : bool :=
  match ev with
  | UpdateFile _ _ _ _ _ | CreateFile _ _ _ _ => true
  | _ => false
  end.

Definition is_remote (ev : event) : bool :=
  match ev with
  | Login _ _ | GetRepository _ _ | GetTree _ _ | Recurse _ _
  | UpdateFile _ _ _ _ _ | CreateFile _ _ _ _ | Merge _ _ _ => true
  | _ => false
  end.

Definition is_merge (ev : event) : bool :=
  match ev with
  | Merge _ _ _ => true
  | _ => false
  end.

(** Programs that call out: from the trace so far to a result and the
    trace extended by the calls made. *)
Module IO.

Definition t (A : Type) : Type := trace -> result A * trace.

Definition ret {A} (a : A) : t A := fun tr => (Ok a, tr).

Definition bind {A B} (m : t A) (k : A -> t B) : t B :=
  fun tr =>
    match m tr with
    | (Ok a, tr') => k a tr'
    | (Raise e, tr') => (Raise e, tr')
    end.

Definition lift {A} (r : result A) : t A := fun tr => (r, tr).

(** [for x in xs: body(x)] *)
Fixpoint for_each {A} (xs : list A) (body : A -> t unit) : t unit :=
  match xs with
  | [] => ret tt
  | x :: xs' => bind (body x) (fun _ => for_each xs' body)
  end.

Section Calls.

Variable w : World.

Definition call (ev : event) : t unit :=
  fun tr => (respond w tr ev, (tr ++ [ev])%list).

Definition read (filename : string) : t string :=
  fun tr => (file_text w tr filename, (tr ++ [Read filename])%list).

Definition recurse (repo : Repository) (branch : string) : t (list Hash) :=
  fun tr => (tree_entries w tr repo branch, (tr ++ [Recurse repo branch])%list).

(** [with open(filename, mode) as f: body]; the file is closed on the
    way out whether [body] returns or raises. *)
Definition with_open {A} (filename mode : string) (body : t A) : t A :=
  fun tr =>
    match call (Open filename mode) tr with
    | (Raise e, tr1) => (Raise e, tr1)
    | (Ok _, tr1) =>
        let '(r, tr2) := body tr1 in (r, (tr2 ++ [Close filename])%list)
    end.

End Calls.

End IO.

Declare Scope io_scope.
Delimit Scope io_scope with io.
Notation "x <- m ;; k" := (IO.bind m (fun x => k))
  (at level 61, m at next level, right associativity) : io_scope.
Notation "m ;; k" := (IO.bind m (fun _ => k))
  (at level 61, right associativity) : io_scope.

(** ** class GitHubPublisher *)

Module GitHubPublisher.

(** An instance: the credentials kept by [__init__] and the name of its
    class, [self.__class__], which the signals carry as sender. *)
Record self_ : Type := {
  class_ : string;
  _username : string;
  _password : string
}.

Definition __init__ (username password : string) : self_ :=
  {| class_ := "GitHubPublisher"; _username := username; _password := password |}.

(** [results_repo_name] *)
Definition results_repo_name (state : string) : string :=
  "openelections-results-" ++ Str.lower state.

(** [get_path] *)
Definition get_path (filename : string) : string :=
  let '(base, ext) := posixpath.splitext filename in
  let without_dir := posixpath.basename filename in
  if Str.endswith base "raw"
  then posixpath.join RAW_PREFIX without_dir
  else posixpath.join CLEAN_PREFIX without_dir.

(** The [for ... else] scan of [get_sha] over [tree.tree]. *)
Fixpoint scan (tree : list Hash) (path_ : string) : option string :=
  match tree with
  | [] => None
  | hsh :: rest =>
      if String.eqb (path hsh) path_ then Some (sha hsh) else scan rest path_
  end.

(** Truth value of [get_sha]'s result: [None] and the empty string are
    false. *)
Definition truthy (sha_ : option string) : bool :=
  match sha_ with
  | Some s => Str.truthy s
  | None => false
  end.

(** The string a true [sha] is. *)
Definition text (sha_ : option string) : string :=
  match sha_ with
  | Some s => s
  | None => EmptyString
  end.

Section Publisher.

Variable host : Host.
Variable w : World.

(** [get_sha] *)
Definition get_sha (repo : Repository) (path_ branch : string)
  : IO.t (option string) :=
  (IO.call w (GetTree repo branch) ;;
   tree <- IO.recurse w repo branch ;;
   IO.ret (scan tree path_))%io.

(** [publish_file] *)
Definition publish_file (self : self_) (repo : Repository)
           (filename branch : string) : IO.t unit :=
  (IO.call w (Send "pre_publish" (class_ self) filename) ;;
   let path_ := get_path filename in
   IO.with_open w filename "r"
     (content <- IO.read w filename ;;
      sha_ <- get_sha repo path_ branch ;;
      if truthy sha_ then
        let msg := "Update file " ++ path_ in
        IO.call w (UpdateFile repo path_ msg content (text sha_))
      else
        let msg := "Create file " ++ path_ in
        IO.call w (CreateFile repo path_ msg content)) ;;
   IO.call w (Send "post_publish" (class_ self) filename))%io.

(** [publish] *)
Definition publish (self : self_) (state : string)
           (datefilter : option string) (raw : bool) : IO.t unit :=
  (IO.call w (Login (_username self) (_password self)) ;;
   let repo_name := results_repo_name state in
   IO.call w (GetRepository "openelections" repo_name) ;;
   let repo := {| owner := "openelections"; name := repo_name |} in
   filenames <- IO.lift (BasePublisher.get_filenames host state datefilter raw None) ;;
   IO.for_each filenames
     (fun filename => publish_file self repo filename "master") ;;
   IO.call w (Merge repo "gh-pages" "master"))%io.

End Publisher.

End GitHubPublisher.

(** ** Reading a trace *)

(** The files an invocation started to publish: the [pre_publish]
    notifications of a trace, in order. *)
Definition attempted (evs : list event) : list string :=
  flat_map
    (fun ev =>
       match ev with
       | Send signal _ filename =>
           if String.eqb signal "pre_publish" then [filename] else []
       | _ => []
       end)
    evs.

(** The one remote write of [publish_file], given the text read and what
    [get_sha] returned. *)
Definition write_call (repo : Repository) (filename content : string)
           (sha_ : option string) : event :=
  let path_ := GitHubPublisher.get_path filename in
  if GitHubPublisher.truthy sha_
  then UpdateFile repo path_ ("Update file " ++ path_) content
                  (GitHubPublisher.text sha_)
  else CreateFile repo path_ ("Create file " ++ path_) content.

Definition is_close (ev : event) : bool :=
  match ev with
  | Close _ => true
  | _ => false
  end.

(** Fetching the full tree of a branch. *)
Definition is_fetch (ev : event) : bool :=
  match ev with
  | Recurse _ _ => true
  | _ => false
  end.

(** What a published file adds to the trace, given the text read and what
    [get_sha] returned. *)
Definition published_block (self : GitHubPublisher.self_) (repo : Repository)
           (branch filename content : string) (sha_ : option string)
  : list event :=
  [Send "pre_publish" (GitHubPublisher.class_ self) filename;
   Open filename "r";
   Read filename;
   GetTree repo branch;
   Recurse repo branch;
   write_call repo filename content sha_;
   Close filename;
   Send "post_publish" (GitHubPublisher.class_ self) filename].

(** [published w self repo branch tr files evs]: after the trace [tr],
    [evs] is one block for each file of [files], in order and nothing
    else, where the block of a file holds the text the world gave for the
    file and the sha found in the tree the world gave for the branch at
    that point of the run. *)
Inductive published (w : World) (self : GitHubPublisher.self_)
          (repo : Repository) (branch : string)
  : trace -> list string -> list event -> Prop :=
| published_nil (tr : trace) : published w self repo branch tr [] []
| published_cons (tr : trace) (filename : string) (files : list string)
                 (content : string) (tree : list Hash) (evs : list event) :
    file_text w
              (tr ++ [Send "pre_publish" (GitHubPublisher.class_ self) filename;
                      Open filename "r"])%list
              filename = Ok content ->
    tree_entries w
                 (tr ++ [Send "pre_publish" (GitHubPublisher.class_ self)
                              filename;
                         Open filename "r"; Read filename;
                         GetTree repo branch])%list
                 repo branch = Ok tree ->
    published w self repo branch
              (tr ++ published_block self repo branch filename content
                       (GitHubPublisher.scan
                          tree (GitHubPublisher.get_path filename)))%list
              files evs ->
    published w self repo branch tr (filename :: files)
              (published_block self repo branch filename content
                               (GitHubPublisher.scan
                                  tree (GitHubPublisher.get_path filename))
               ++ evs)%list.

(** ** A sample host and sample worlds *)

Module Sample.

(** Shell patterns made of literal characters, [*] and [?]: the
    matcher [fnmatch] is on patterns without bracket expressions. *)
Fixpoint wildcard (pat name_ : string) : bool :=
  match pat with
  | EmptyString =>
      match name_ with EmptyString => true | _ => false end
  | String c pat' =>
      if Ascii.eqb c "*" then
        (fix star (n : string) : bool :=
           wildcard pat' n
           || match n with
              | EmptyString => false
              | String _ n' => star n'
              end) name_
      else
        match name_ with
        | EmptyString => false
        | String d n' =>
            (Ascii.eqb c "?" || Ascii.eqb c d) && wildcard pat' n'
        end
  end.

Definition bakery : list string :=
  ["20140101__ny__general.csv";
   "20141104__ny__general.csv";
   "20140101__ny__general__raw.csv"].

(** What the system calls raise for a path that holds a NUL byte. *)
Definition nul_refused : exn :=
  TypeError "must be encoded string without NULL bytes, not str".

(** A file system holding [/data/us/bakery] with the files above and
    nothing else; directories are found whatever the number of trailing
    slashes, and a path that holds a NUL byte is refused with a
    [TypeError], as [os.listdir], [os.stat] and [os.lstat] do. *)
Definition ls (d : string) : result (list string) :=
  if Str.mem Ascii.zero d then Raise nul_refused
  else
    let d' := Str.rstrip d "/" in
    if String.eqb d' "/data" then Ok ["us"]
    else if String.eqb d' "/data/us" then Ok ["bakery"]
    else if String.eqb d' "/data/us/bakery" then Ok bakery
    else Raise (OSError d).

Definition is_dir (p : string) : result bool :=
  if Str.mem Ascii.zero p then Raise nul_refused
  else Ok match ls p with Ok _ => true | Raise _ => false end.


Definition exists_ (p : string) : result bool :=
  if Str.mem Ascii.zero p then Raise nul_refused
  else
    Ok (match ls p with Ok _ => true | Raise _ => false end
        || existsb (fun f => String.eqb p ("/data/us/bakery/" ++ f)) bakery).

Lemma ls_names (d : string) (names : list string) :
  ls d = Ok names -> Forall (fun x => x <> EmptyString) names.
Proof.
  unfold ls, bakery.
  repeat match goal with
         | |- context [if ?b then _ else _] => destruct b
         end;
    intros H; inversion H; subst; repeat constructor; discriminate.
Qed.

Definition host : Host :=
  {| COUNTRY_DIR := "/data/us";
     listdir := ls;
     lexists := exists_;
     isdir := is_dir;
     fnmatch := fun name_ pat => wildcard pat name_;
     recursion_limit := 1000;
     listdir_names := ls_names |}.

(** A world in which the read of [unreadable] fails, the calls selected
    by [rejected] are refused, every other call succeeds, every file reads
    as [text] and every tree has the entries [tree]. *)
Definition world (tree : list Hash) (text : string) (unreadable : string)
           (rejected : event -> bool) : World :=
  {| respond := fun _ ev =>
       if rejected ev then Raise (ExternalError "refused") else Ok tt;
     file_text := fun _ filename =>
       if String.eqb filename unreadable then Raise (IOError filename)
       else Ok text;
     tree_entries := fun _ _ _ => Ok tree |}.

Definition publisher : GitHubPublisher.self_ :=
  GitHubPublisher.__init__ "user" "secret".

(** A tree in which the path of the first bakery file occurs twice. *)
Definition first_entry : Hash :=
  {| path := "raw/20140101__ny__general__raw.csv"; sha := "1f0c" |}.
Definition second_entry : Hash :=
  {| path := "clean/20140101__ny__general.csv"; sha := "a94a" |}.
Definition third_entry : Hash :=
  {| path := "clean/20140101__ny__general.csv"; sha := "77de" |}.
Definition tree : list Hash := [first_entry; second_entry; third_entry].

Definition first_file : string := "/data/us/bakery/20140101__ny__general.csv".
Definition second_file : string := "/data/us/bakery/20141104__ny__general.csv".
Definition third_file : string :=
  "/data/us/bakery/20140101__ny__general__raw.csv".

(** Every call succeeds. *)
Definition quiet : World := world tree "votes" "" (fun _ => false).

(** The second bakery file cannot be read. *)
Definition second_unreadable : World :=
  world tree "votes" second_file (fun _ => false).

(** The repository refuses every write. *)
Definition read_only : World := world tree "votes" "" is_write.

(** The credentials are refused. *)
Definition locked_out : World :=
  world tree "votes" ""
        (fun ev => match ev with Login _ _ => true | _ => false end).

(** The tree lists the first bakery file with an empty sha. *)
Definition blank_entry : Hash :=
  {| path := "clean/20140101__ny__general.csv"; sha := "" |}.
Definition blank_sha : World :=
  world [blank_entry; second_entry] "votes" "" (fun _ => false).

Definition repo : Repository :=
  {| owner := "openelections"; name := "openelections-results-ny" |}.

End Sample.

(** * Properties *)

(** ** Strings *)

Section StrFacts.

Import Str.

Lemma append_nil_r (s : string) : s ++ "" = s.
Proof. induction s as [|a s IH]; simpl; [reflexivity | now rewrite IH]. Qed.

Lemma append_assoc (s t u : string) : (s ++ t) ++ u = s ++ t ++ u.
Proof. induction s as [|a s IH]; simpl; [reflexivity | now rewrite IH]. Qed.

Lemma length_append (s t : string) :
  String.length (s ++ t) = String.length s + String.length t.
Proof. induction s as [|a s IH]; simpl; [reflexivity | now rewrite IH]. Qed.

Lemma take_drop (n : nat) (s : string) : take n s ++ drop n s = s.
Proof.
  revert s; induction n as [|n IH]; intros [|a s]; simpl; try reflexivity.
  now rewrite IH.
Qed.

Lemma take_length_append (s t : string) : take (String.length s) (s ++ t) = s.
Proof. induction s as [|a s IH]; simpl; [now destruct t | now rewrite IH]. Qed.

Lemma drop_length_append (s t : string) : drop (String.length s) (s ++ t) = t.
Proof. induction s as [|a s IH]; simpl; [reflexivity | exact IH]. Qed.

Lemma mem_append (c : ascii) (s t : string) :
  mem c (s ++ t) = mem c s || mem c t.
Proof.
  induction s as [|a s IH]; simpl; [reflexivity |].
  now rewrite IH, orb_assoc.
Qed.

Lemma rfind_lower_bound (s : string) (c : ascii) : (-1 <= rfind s c)%Z.
Proof.
  induction s as [|a s IH]; simpl; [lia |].
  destruct (0 <=? rfind s c)%Z eqn:E; [apply Z.leb_le in E; lia |].
  destruct (Ascii.eqb a c); lia.
Qed.

Lemma rfind_absent (s : string) (c : ascii) :
  rfind s c = (-1)%Z <-> mem c s = false.
Proof.
  induction s as [|a s IH]; simpl; [tauto |].
  pose proof (rfind_lower_bound s c) as Hlb.
  destruct (0 <=? rfind s c)%Z eqn:E.
  - apply Z.leb_le in E. split; [lia |].
    intros H. apply orb_false_elim in H as [_ H]. apply IH in H. lia.
  - apply Z.leb_gt in E. assert (Hr : rfind s c = (-1)%Z) by lia.
    apply IH in Hr. rewrite Hr, orb_false_r.
    destruct (Ascii.eqb a c); split; intros; try reflexivity; try discriminate.
Qed.

(** The last occurrence splits the string: nothing after it is [c]. *)
Lemma rfind_present (s : string) (c : ascii) :
  (0 <= rfind s c)%Z ->
  exists h t, s = h ++ String c t /\ mem c t = false
              /\ rfind s c = Z.of_nat (String.length h).
Proof.
  induction s as [|a s IH]; simpl; [lia |].
  pose proof (rfind_lower_bound s c) as Hlb.
  destruct (0 <=? rfind s c)%Z eqn:E.
  - apply Z.leb_le in E. intros _.
    destruct (IH E) as (h & t & Hs & Ht & Hr).
    exists (String a h), t. simpl. rewrite <- Hs. repeat split; [assumption | lia].
  - apply Z.leb_gt in E. assert (Hr : rfind s c = (-1)%Z) by lia.
    destruct (Ascii.eqb_spec a c) as [->|]; [| lia]. intros _.
    exists "", s. simpl. repeat split. now apply rfind_absent.
Qed.

Lemma endswith_append (s t : string) : endswith (s ++ t) t = true.
Proof.
  unfold endswith. rewrite length_append.
  replace (String.length s + String.length t - String.length t)
    with (String.length s) by lia.
  rewrite drop_length_append, String.eqb_refl, andb_true_r.
  apply Nat.leb_le. lia.
Qed.

Lemma endswith_suffix (s t : string) :
  endswith s t = true -> exists pre, s = pre ++ t.
Proof.
  unfold endswith. intros H. apply andb_prop in H as [_ H].
  apply String.eqb_eq in H.
  exists (take (String.length s - String.length t) s).
  pose proof (take_drop (String.length s - String.length t) s) as E.
  rewrite H in E. now symmetry.
Qed.


Lemma startswith_sep_mem (c : ascii) (s : string) :
  startswith s (String c "") = true -> mem c s = true.
Proof.
  unfold startswith. destruct s as [|a s]; simpl; [discriminate |].
  destruct (ascii_dec c a) as [->|]; [| discriminate].
  now rewrite Ascii.eqb_refl.
Qed.

Lemma lower_char_upper_char (c : ascii) : lower_char (upper_char c) = lower_char c.
Proof.
  destruct c as [[] [] [] [] [] [] [] []]; reflexivity.
Qed.

Lemma lower_char_idempotent (c : ascii) : lower_char (lower_char c) = lower_char c.
Proof.
  destruct c as [[] [] [] [] [] [] [] []]; reflexivity.
Qed.

Lemma lower_idempotent (s : string) : lower (lower s) = lower s.
Proof.
  induction s as [|a s IH]; simpl; [reflexivity |].
  now rewrite lower_char_idempotent, IH.
Qed.

Lemma lower_append (s t : string) : lower (s ++ t) = lower s ++ lower t.
Proof. induction s as [|a s IH]; simpl; [reflexivity | now rewrite IH]. Qed.

Lemma lower_upper (s : string) : lower (upper s) = lower s.
Proof.
  induction s as [|a s IH]; simpl; [reflexivity |].
  now rewrite lower_char_upper_char, IH.
Qed.

Lemma same_letter_lower (a b : ascii) :
  same_letter a b -> lower_char a = lower_char b.
Proof.
  intros [-> | [<- | ->]]; [reflexivity | |];
    now rewrite lower_char_upper_char.
Qed.

Lemma same_modulo_case_lower (s t : string) :
  same_modulo_case s t -> lower s = lower t.
Proof.
  induction 1 as [|a b s t Hab _ IH]; simpl; [reflexivity |].
  now rewrite (same_letter_lower a b Hab), IH.
Qed.

End StrFacts.

(** ** posixpath *)

Section PathFacts.

Import Str.

(** [basename] is what follows the last separator. *)
Lemma basename_spec (p : string) :
  exists dir,
    p = dir ++ posixpath.basename p
    /\ (dir = "" \/ endswith dir "/" = true)
    /\ mem "/" (posixpath.basename p) = false.
Proof.
  unfold posixpath.basename, slice_from, posixpath.sep.
  pose proof (rfind_lower_bound p "/") as Hlb.
  destruct (Z.eq_dec (rfind p "/") (-1)) as [E | E].
  - rewrite E. simpl. exists "". repeat split; [now left | now apply rfind_absent].
  - destruct (rfind_present p "/") as (h & t & Hp & Ht & Hr); [lia |].
    rewrite Hr.
    replace (Z.to_nat (Z.of_nat (String.length h) + 1))
      with (String.length (h ++ "/")) by (rewrite length_append; simpl; lia).
    assert (Hp' : p = (h ++ "/") ++ t) by (now rewrite append_assoc).
    assert (Hd : drop (String.length (h ++ "/")) p = t)
      by (rewrite Hp'; apply drop_length_append).
    rewrite Hd.
    exists (h ++ "/"). repeat split; [exact Hp' | right; apply endswith_append | exact Ht].
Qed.

Lemma splitext_concat (p : string) :
  fst (posixpath.splitext p) ++ snd (posixpath.splitext p) = p.
Proof.
  unfold posixpath.splitext.
  destruct (_ <? _)%Z; [| apply append_nil_r].
  destruct (posixpath.leading_dots_only _ _ _); [apply append_nil_r |].
  apply take_drop.
Qed.

(** Joining a directory that does not end in a separator with a name that
    holds none puts one separator between them. *)
Lemma join_name (a b : string) :
  truthy a = true -> endswith a "/" = false -> mem "/" b = false ->
  posixpath.join a b = a ++ "/" ++ b.
Proof.
  intros Ha He Hb. unfold posixpath.join.
  destruct (startswith b "/") eqn:Hs.
  - apply startswith_sep_mem in Hs. congruence.
  - now rewrite Ha, He.
Qed.

End PathFacts.

(** ** GitHubPublisher.get_path and results_repo_name *)

Section PurePublisherFacts.

Import Str GitHubPublisher.

Lemma get_path_unfold (filename : string) :
  get_path filename =
  (if endswith (fst (posixpath.splitext filename)) "raw" then "raw/" else "clean/")
    ++ posixpath.basename filename.
Proof.
  unfold get_path.
  destruct (posixpath.splitext filename) as [base ext]. simpl fst.
  destruct (basename_spec filename) as (_ & _ & _ & Hmem).
  destruct (endswith base "raw");
    (rewrite join_name; [reflexivity | reflexivity | reflexivity | exact Hmem]).
Qed.

(** C1.  [get_path] splits the filename into base and extension, keeps
    only what follows the last separator of the filename, and puts it under
    ["raw/"] when the base before the extension ends with ["raw"] and under
    ["clean/"] otherwise, always with a forward slash in between. *)
Theorem get_path_raw_or_clean (filename : string) :
  let base := fst (posixpath.splitext filename) in
  let ext := snd (posixpath.splitext filename) in
  let without_dir := posixpath.basename filename in
  base ++ ext = filename
  /\ (exists dir, filename = dir ++ without_dir
                  /\ (dir = "" \/ endswith dir "/" = true))
  /\ mem "/" without_dir = false
  /\ get_path filename =
     (if endswith base "raw" then "raw/" else "clean/") ++ without_dir.
Proof.
  cbv zeta. split; [apply splitext_concat |].
  destruct (basename_spec filename) as (dir & Hf & Hd & Hmem).
  split; [now exists dir |].
  split; [exact Hmem | apply get_path_unfold].
Qed.

(** C10.  A filename whose base before the extension ends with the three
    characters ["raw"] is published under ["raw/"], whether or not a
    double underscore precedes them. *)
Theorem get_path_raw_without_separator (filename : string) :
  endswith (fst (posixpath.splitext filename)) "raw" = true ->
  get_path filename = "raw/" ++ posixpath.basename filename.
Proof.
  intros H. now rewrite get_path_unfold, H.
Qed.

Lemma get_path_raw_without_separator_witness :
  endswith (fst (posixpath.splitext "20140101__ny__withdraw.csv")) "raw" = true
  /\ endswith (fst (posixpath.splitext "20140101__ny__withdraw.csv")) "__raw" = false
  /\ get_path "20140101__ny__withdraw.csv" = "raw/20140101__ny__withdraw.csv".
Proof.
  split; [reflexivity |]. split; [reflexivity |].
  apply (get_path_raw_without_separator "20140101__ny__withdraw.csv").
  reflexivity.
Defined.

(** C8.  [results_repo_name] is the fixed prefix followed by the
    lowercased code; the name is itself lowercase, and codes that differ
    only in the case of their letters get the same name. *)
Theorem results_repo_name_lowercased :
  (forall j, results_repo_name j = "openelections-results-" ++ lower j)
  /\ (forall j, lower (results_repo_name j) = results_repo_name j)
  /\ (forall j j', same_modulo_case j j' ->
                   results_repo_name j = results_repo_name j')
  /\ (forall j, results_repo_name (upper j) = results_repo_name j
                /\ results_repo_name (lower j) = results_repo_name j)
  /\ results_repo_name "NY" = results_repo_name "ny".
Proof.
  unfold results_repo_name. split; [reflexivity |].
  split; [intros j; now rewrite lower_append, lower_idempotent |].
  split; [intros j j' H; now rewrite (same_modulo_case_lower j j' H) |].
  split; [| reflexivity].
  intros j. now rewrite lower_upper, lower_idempotent.
Qed.

Lemma results_repo_name_lowercased_witness :
  same_modulo_case "Ny" "nY"
  /\ results_repo_name "Ny" = results_repo_name "nY".
Proof.
  assert (H : same_modulo_case "Ny" "nY").
  { constructor; [right; right; reflexivity |].
    constructor; [right; left; reflexivity | constructor]. }
  split; [exact H |].
  exact (proj1 (proj2 (proj2 results_repo_name_lowercased)) "Ny" "nY" H).
Defined.

End PurePublisherFacts.

(** ** ResultFileFinder.build_glob *)

Section BuildGlobFacts.

Import ResultFileFinder.

(** The file part of the pattern, written out. *)
Lemma build_glob_file_part (state search_dir ext : string)
      (datefilter : option string) (raw : bool) :
  build_glob state search_dir ext datefilter raw =
  posixpath.join search_dir
    ((spec_date_segment datefilter ++ "__" ++ state ++ "__" ++ "*"
        ++ (if raw then "__raw" else ""))
     ++ ext).
Proof.
  unfold build_glob, spec_date_segment, RAW_PREFIX.
  destruct datefilter as [[|c d]|], raw; simpl;
    rewrite ?append_assoc; simpl; rewrite ?append_assoc; simpl;
    rewrite ?append_nil_r; reflexivity.
Qed.

(** C2.  The pattern is the search directory joined with the file
    pattern; the file pattern joins with a double underscore the date
    segment, the state, a wildcard and, for raw files only, the raw marker,
    and the extension follows without a separator. *)
Theorem build_glob_pattern (state search_dir ext : string)
        (datefilter : option string) (raw : bool) :
  build_glob state search_dir ext datefilter raw =
  posixpath.join search_dir
    (String.concat "__"
       ([spec_date_segment datefilter; state; "*"]
          ++ (if raw then ["raw"] else []))%list
     ++ ext)
  /\ build_glob state search_dir ext datefilter raw =
     posixpath.join search_dir
       ((spec_date_segment datefilter ++ "__" ++ state ++ "__" ++ "*"
           ++ (if raw then "__raw" else ""))
        ++ ext).
Proof.
  unfold build_glob, spec_date_segment, RAW_PREFIX.
  destruct datefilter as [[|c d]|], raw; simpl;
    rewrite ?append_assoc; simpl; rewrite ?append_assoc; simpl;
    rewrite ?append_nil_r; split; reflexivity.
Qed.

End BuildGlobFacts.

(** ** BasePublisher.publish *)

(** C6.  Calling [publish] on the base class evaluates
    [NotImplemented("...")], a call of an object that is not callable: what
    reaches the caller is a [TypeError], not a [NotImplementedError]. *)
Theorem base_publish_raises_type_error
        (state : string) (datefilter : option string) (raw : bool) :
  BasePublisher.publish state datefilter raw =
  Raise (TypeError "'NotImplementedType' object is not callable")
  /\ forall msg, BasePublisher.publish state datefilter raw
                 <> Raise (NotImplementedError msg).
Proof.
  split; [reflexivity | intros msg H; discriminate H].
Qed.

(** ** Runs of the publisher *)

Section ListFacts.

Context {A : Type}.

(** A list with exactly one element satisfying [P] splits around it in
    one way only. *)
Lemma unique_split (P : A -> bool) (l1 l2 pfx sfx : list A) (x y : A) :
  (l1 ++ y :: l2 = pfx ++ x :: sfx)%list ->
  P x = true ->
  forallb (fun z => negb (P z)) l1 = true ->
  forallb (fun z => negb (P z)) l2 = true ->
  pfx = l1 /\ x = y /\ sfx = l2.
Proof.
  revert pfx. induction l1 as [|a l1 IH]; intros pfx H Hx H1 H2.
  - destruct pfx as [|b pfx]; simpl in H.
    + injection H as -> ->. auto.
    + injection H as -> ->. exfalso.
      rewrite forallb_app in H2. apply andb_prop in H2 as [_ H2].
      simpl in H2. rewrite Hx in H2. discriminate.
  - simpl in H1. apply andb_prop in H1 as [Ha H1].
    destruct pfx as [|b pfx]; simpl in H.
    + injection H as -> _. rewrite Hx in Ha. discriminate.
    + injection H as -> H.
      destruct (IH pfx H Hx H1 H2) as (-> & -> & ->). auto.
Qed.

End ListFacts.

Ltac norm_trace := repeat rewrite <- app_assoc; cbn [app].

Section PublishFileFacts.

Import GitHubPublisher.
Local Open Scope list_scope.

Variable w : World.
Variable self : self_.
Variable repo : Repository.
Variables filename branch : string.

Let pre := Send "pre_publish" (class_ self) filename.
Let post := Send "post_publish" (class_ self) filename.

(** Every run of [publish_file]: either it stops before the remote
    write, or the write is attempted and its outcome decides the rest. *)
Lemma publish_file_cases (tr : trace) :
  exists r evs,
    publish_file w self repo filename branch tr = (r, tr ++ pre :: evs)
    /\ ((exists e, r = Raise e
                   /\ (evs = []
                       \/ evs = [Open filename "r"]
                       \/ evs = [Open filename "r"; Read filename; Close filename]
                       \/ evs = [Open filename "r"; Read filename;
                                 GetTree repo branch; Close filename]
                       \/ evs = [Open filename "r"; Read filename;
                                 GetTree repo branch; Recurse repo branch;
                                 Close filename]))
        \/ (exists content tree,
               let before := [Open filename "r"; Read filename;
                              GetTree repo branch; Recurse repo branch] in
               let wr := write_call repo filename content
                                    (scan tree (get_path filename)) in
               file_text w (tr ++ [pre; Open filename "r"]) filename = Ok content
               /\ get_sha w repo (get_path filename) branch
                          (tr ++ [pre; Open filename "r"; Read filename])
                  = (Ok (scan tree (get_path filename)),
                     tr ++ pre :: before)
               /\ match respond w (tr ++ pre :: before) wr with
                  | Raise e =>
                      r = Raise e /\ evs = before ++ [wr; Close filename]
                  | Ok _ =>
                      r = respond w (tr ++ pre :: before ++ [wr; Close filename]) post
                      /\ evs = before ++ [wr; Close filename; post]
                  end)).
Proof.
  unfold publish_file, get_sha, IO.with_open, IO.bind, IO.call, IO.read,
    IO.recurse, IO.ret.
  fold pre post.
  destruct (respond w tr pre) as [[]|e] eqn:E1; norm_trace.
  2: { exists (Raise e), []. split; [reflexivity | left; exists e; auto]. }
  destruct (respond w (tr ++ [pre]) (Open filename "r")) as [[]|e] eqn:E2;
    norm_trace.
  2: { exists (Raise e), [Open filename "r"].
       split; [reflexivity | left; exists e; auto]. }
  destruct (file_text w (tr ++ [pre; Open filename "r"]) filename)
    as [content|e] eqn:E3; norm_trace.
  2: { exists (Raise e), [Open filename "r"; Read filename; Close filename].
       split; [reflexivity | left; exists e; auto 6]. }
  destruct (respond w (tr ++ [pre; Open filename "r"; Read filename])
                    (GetTree repo branch)) as [[]|e] eqn:E4; norm_trace.
  2: { exists (Raise e),
         [Open filename "r"; Read filename; GetTree repo branch; Close filename].
       split; [reflexivity | left; exists e; auto 7]. }
  destruct (tree_entries w
              (tr ++ [pre; Open filename "r"; Read filename; GetTree repo branch])
              repo branch) as [tree|e] eqn:E5; norm_trace.
  2: { exists (Raise e),
         [Open filename "r"; Read filename; GetTree repo branch;
          Recurse repo branch; Close filename].
       split; [reflexivity | left; exists e; auto 8]. }
  unfold write_call.
  destruct (truthy (scan tree (get_path filename))) eqn:Et;
    match goal with
    | |- context [match respond w ?t ?ev with _ => _ end] =>
        destruct (respond w t ev) as [[]|e] eqn:E6
    end; norm_trace;
    do 2 eexists; (split; [reflexivity |]);
    right; exists content, tree; cbv zeta; rewrite ?Et;
    (split; [reflexivity |]); (split; [reflexivity |]);
    cbn [app]; rewrite E6; auto.
Qed.

(** What a run of [publish_file] adds to the trace: one [pre_publish],
    no merge. *)
Lemma publish_file_events (tr : trace) :
  exists r evs,
    publish_file w self repo filename branch tr = (r, tr ++ evs)
    /\ filter is_merge evs = []
    /\ attempted evs = [filename].
Proof.
  destruct (publish_file_cases tr) as (r & evs & Hrun & Hcases).
  exists r, (pre :: evs). split; [exact Hrun |].
  destruct Hcases as [(e & _ & Hevs) | (content & tree & _ & _ & Hwr)].
  - destruct Hevs as [-> | [-> | [-> | [-> | ->]]]]; split; reflexivity.
  - cbv zeta in Hwr. unfold write_call in Hwr.
    destruct (truthy _);
      destruct (respond w _ _) as [[]|e]; destruct Hwr as [_ ->];
      split; reflexivity.
Qed.


(** Where [post_publish] stands in a run: right after a write that
    returned and the close of the file, and nowhere else. *)
Lemma publish_file_post_after_write (tr : trace) :
  exists r evs,
    publish_file w self repo filename branch tr = (r, tr ++ pre :: evs)
    /\ (forall pfx wr sfx,
           evs = pfx ++ wr :: sfx -> is_write wr = true ->
           match outcome w (tr ++ pre :: pfx) wr with
           | Ok _ => sfx = [Close filename; post]
           | Raise e => r = Raise e /\ ~ In post evs
           end)
    /\ (In post evs ->
        exists pfx wr,
          evs = pfx ++ [wr; Close filename; post]
          /\ is_write wr = true
          /\ Forall (fun ev => ev <> post) pfx
          /\ outcome w (tr ++ pre :: pfx) wr = Ok tt).
Proof.
  destruct (publish_file_cases tr) as (r & evs & Hrun & Hcases).
  exists r, evs. split; [exact Hrun |].
  destruct Hcases as [(e & _ & Hevs) | (content & tree & _ & _ & Hwr)].
  - split.
    + intros pfx wr sfx Hsplit Hw. exfalso.
      assert (Hnone : filter is_write evs = [])
        by (destruct Hevs as [-> | [-> | [-> | [-> | ->]]]]; reflexivity).
      rewrite Hsplit, filter_app in Hnone. simpl in Hnone.
      rewrite Hw in Hnone. now apply app_eq_nil in Hnone as [_ Hnone].
    + intros Hin. exfalso.
      destruct Hevs as [-> | [-> | [-> | [-> | ->]]]]; simpl in Hin;
        repeat (destruct Hin as [Hin | Hin]; [discriminate Hin |]);
        exact Hin.
  - cbv zeta in Hwr.
    set (before := [Open filename "r"; Read filename; GetTree repo branch;
                    Recurse repo branch]) in *.
    set (wr0 := write_call repo filename content
                           (scan tree (get_path filename))) in *.
    assert (Hw0 : is_write wr0 = true)
      by (unfold wr0, write_call; now destruct (truthy _)).
    assert (Hnot_post : wr0 <> post)
      by (unfold wr0, write_call, post; destruct (truthy _); discriminate).
    assert (Hout : outcome w (tr ++ pre :: before) wr0
                   = respond w (tr ++ pre :: before) wr0)
      by (unfold wr0, write_call; now destruct (truthy _)).
    destruct (respond w (tr ++ pre :: before) wr0) as [[]|e] eqn:E;
      destruct Hwr as [Hr Hevs].
    + split.
      * intros pfx wr sfx Hsplit Hw.
        rewrite Hevs in Hsplit.
        change (before ++ [wr0; Close filename; post])
          with (before ++ wr0 :: [Close filename; post]) in Hsplit.
        apply (unique_split is_write) in Hsplit; try assumption;
          try reflexivity.
        destruct Hsplit as (-> & -> & ->). now rewrite Hout.
      * intros _. exists before, wr0.
        split; [exact Hevs |]. split; [exact Hw0 |].
        split; [repeat constructor; discriminate |]. now rewrite Hout.
    + split.
      * intros pfx wr sfx Hsplit Hw.
        rewrite Hevs in Hsplit.
        change (before ++ [wr0; Close filename])
          with (before ++ wr0 :: [Close filename]) in Hsplit.
        apply (unique_split is_write) in Hsplit; try assumption;
          try reflexivity.
        destruct Hsplit as (-> & -> & ->). rewrite Hout.
        split; [exact Hr |]. rewrite Hevs. simpl.
        intros Hin.
        repeat (destruct Hin as [Hin | Hin];
                [solve [discriminate Hin | now apply Hnot_post] |]).
        exact Hin.
      * intros Hin. exfalso. rewrite Hevs in Hin. simpl in Hin.
        repeat (destruct Hin as [Hin | Hin];
                [solve [discriminate Hin | now apply Hnot_post] |]).
        exact Hin.
Qed.

(** Once the text is read and the tree fetched, the run is decided by the
    one write. *)
Lemma publish_file_after_fetch (tr : trace) (content : string)
      (tree : list Hash) :
  respond w tr pre = Ok tt ->
  respond w (tr ++ [pre]) (Open filename "r") = Ok tt ->
  file_text w (tr ++ [pre; Open filename "r"]) filename = Ok content ->
  respond w (tr ++ [pre; Open filename "r"; Read filename])
          (GetTree repo branch) = Ok tt ->
  tree_entries w (tr ++ [pre; Open filename "r"; Read filename;
                         GetTree repo branch]) repo branch = Ok tree ->
  let before := tr ++ [pre; Open filename "r"; Read filename;
                       GetTree repo branch; Recurse repo branch] in
  let wr := write_call repo filename content (scan tree (get_path filename)) in
  publish_file w self repo filename branch tr
  = match respond w before wr with
    | Ok _ => (respond w (before ++ [wr; Close filename]) post,
               before ++ [wr; Close filename; post])
    | Raise e => (Raise e, before ++ [wr; Close filename])
    end.
Proof.
  intros Hpre Hopen Hread Hget Htree before wr.
  unfold publish_file, get_sha, IO.with_open, IO.bind, IO.call, IO.read,
    IO.recurse, IO.ret.
  fold pre post.
  rewrite Hpre. norm_trace. rewrite Hopen. norm_trace.
  rewrite Hread. norm_trace. rewrite Hget. norm_trace.
  rewrite Htree. norm_trace. fold before.
  unfold wr, write_call.
  destruct (truthy (scan tree (get_path filename)));
    destruct (respond w before _) as [[]|e]; norm_trace; reflexivity.
Qed.

(** C9.  Every call of [publish_file] sends [pre_publish] with the
    filename before anything else, so before any remote call.  When the
    text is read and the tree fetched, the remote write follows, an update
    if [get_sha] found a true sha and a create otherwise; on either path,
    when the write returns the file is closed and [post_publish] is sent
    with the filename, and when the write raises the file is closed, the
    exception leaves [publish_file] and [post_publish] is not sent.
    [post_publish] is sent only right after a write that returned. *)
Theorem publish_file_notifications (tr : trace) :
  (exists r evs,
      publish_file w self repo filename branch tr = (r, tr ++ pre :: evs)
      /\ (forall pfx wr sfx,
             evs = pfx ++ wr :: sfx -> is_write wr = true ->
             match outcome w (tr ++ pre :: pfx) wr with
             | Ok _ => sfx = [Close filename; post]
             | Raise e => r = Raise e /\ ~ In post evs
             end)
      /\ (In post evs ->
          exists pfx wr,
            evs = pfx ++ [wr; Close filename; post]
            /\ is_write wr = true
            /\ Forall (fun ev => ev <> post) pfx
            /\ outcome w (tr ++ pre :: pfx) wr = Ok tt))
  /\ (forall content tree,
         respond w tr pre = Ok tt ->
         respond w (tr ++ [pre]) (Open filename "r") = Ok tt ->
         file_text w (tr ++ [pre; Open filename "r"]) filename = Ok content ->
         respond w (tr ++ [pre; Open filename "r"; Read filename])
                 (GetTree repo branch) = Ok tt ->
         tree_entries w (tr ++ [pre; Open filename "r"; Read filename;
                                GetTree repo branch]) repo branch = Ok tree ->
         let path_ := get_path filename in
         let before := tr ++ [pre; Open filename "r"; Read filename;
                              GetTree repo branch; Recurse repo branch] in
         let update := fun s =>
           UpdateFile repo path_ ("Update file " ++ path_)%string content s in
         let create :=
           CreateFile repo path_ ("Create file " ++ path_)%string content in
         (forall s,
             scan tree path_ = Some s -> s <> EmptyString ->
             (respond w before (update s) = Ok tt ->
              publish_file w self repo filename branch tr
              = (respond w (before ++ [update s; Close filename]) post,
                 before ++ [update s; Close filename; post]))
             /\ (forall e,
                    respond w before (update s) = Raise e ->
                    publish_file w self repo filename branch tr
                    = (Raise e, before ++ [update s; Close filename])))
         /\ (scan tree path_ = None \/ scan tree path_ = Some EmptyString ->
             (respond w before create = Ok tt ->
              publish_file w self repo filename branch tr
              = (respond w (before ++ [create; Close filename]) post,
                 before ++ [create; Close filename; post]))
             /\ (forall e,
                    respond w before create = Raise e ->
                    publish_file w self repo filename branch tr
                    = (Raise e, before ++ [create; Close filename])))).
Proof.
  split; [apply publish_file_post_after_write |].
  intros content tree Hpre Hopen Hread Hget Htree path_ before update create.
  pose proof (publish_file_after_fetch tr content tree
                Hpre Hopen Hread Hget Htree) as Hrun.
  cbv zeta in Hrun. fold before path_ in Hrun. unfold write_call in Hrun.
  fold path_ in Hrun. split.
  - intros s Hs Hne. rewrite Hs in Hrun.
    assert (Ht : truthy (Some s) = true) by (destruct s; [congruence | reflexivity]).
    rewrite Ht in Hrun. cbn [text] in Hrun. fold (update s) in Hrun.
    split.
    + intros Hok. rewrite Hok in Hrun. exact Hrun.
    + intros e He. rewrite He in Hrun. exact Hrun.
  - intros Hs.
    assert (Ht : truthy (scan tree path_) = false)
      by (destruct Hs as [-> | ->]; reflexivity).
    rewrite Ht in Hrun. fold create in Hrun. split.
    + intros Hok. rewrite Hok in Hrun. exact Hrun.
    + intros e He. rewrite He in Hrun. exact Hrun.
Qed.

End PublishFileFacts.

(** ** GitHubPublisher.get_sha *)

Section GetShaFacts.

Import GitHubPublisher.
Local Open Scope list_scope.

Lemma scan_none (tree : list Hash) (path_ : string) :
  scan tree path_ = None <-> forall h, In h tree -> path h <> path_.
Proof.
  induction tree as [|h0 tree IH]; simpl.
  - split; [intros _ h [] | reflexivity].
  - destruct (String.eqb_spec (path h0) path_) as [E | E].
    + split; [discriminate |]. intros H. exfalso. apply (H h0); auto.
    + rewrite IH. split.
      * intros H h [<- | Hin]; auto.
      * intros H h Hin. apply H. now right.
Qed.

Lemma scan_first (pre post : list Hash) (h : Hash) (path_ : string) :
  (forall x, In x pre -> path x <> path_) ->
  path h = path_ ->
  scan (pre ++ h :: post) path_ = Some (sha h).
Proof.
  intros Hpre Hh. induction pre as [|x pre IH]; simpl.
  - apply String.eqb_eq in Hh. now rewrite Hh.
  - destruct (String.eqb_spec (path x) path_) as [E | E].
    + exfalso. apply (Hpre x); [now left | exact E].
    + apply IH. intros y Hy. apply Hpre. now right.
Qed.

Lemma scan_some (tree : list Hash) (path_ s : string) :
  scan tree path_ = Some s ->
  exists pre h post,
    tree = pre ++ h :: post
    /\ (forall x, In x pre -> path x <> path_)
    /\ path h = path_ /\ sha h = s.
Proof.
  induction tree as [|h0 tree IH]; simpl; [discriminate |].
  destruct (String.eqb_spec (path h0) path_) as [E | E].
  - intros [= <-]. exists [], h0, tree. repeat split; auto.
  - intros H. destruct (IH H) as (pre & h & post & -> & Hpre & Hh & Hs).
    exists (h0 :: pre), h, post. repeat split; auto.
    intros x [<- | Hin]; auto.
Qed.

Variable w : World.

(** C3.  When the tree of the branch is fetched, [get_sha] returns
    without raising: [None] exactly when no entry of the tree has the
    path, and otherwise the sha of the first entry that has it. *)
Theorem get_sha_first_match (repo : Repository) (path_ branch : string)
        (tr : trace) (tree : list Hash) :
  respond w tr (GetTree repo branch) = Ok tt ->
  tree_entries w (tr ++ [GetTree repo branch]) repo branch = Ok tree ->
  exists found,
    get_sha w repo path_ branch tr
    = (Ok found, tr ++ [GetTree repo branch; Recurse repo branch])
    /\ (found = None <-> forall h, In h tree -> path h <> path_)
    /\ (forall pre h post,
           tree = pre ++ h :: post ->
           (forall x, In x pre -> path x <> path_) ->
           path h = path_ ->
           found = Some (sha h))
    /\ (forall s, found = Some s ->
                  exists pre h post,
                    tree = pre ++ h :: post
                    /\ (forall x, In x pre -> path x <> path_)
                    /\ path h = path_ /\ sha h = s).
Proof.
  intros Htree Hentries. exists (scan tree path_).
  split.
  - unfold get_sha, IO.bind, IO.call, IO.recurse, IO.ret.
    rewrite Htree, Hentries. norm_trace. reflexivity.
  - split; [apply scan_none |].
    split; [| apply scan_some].
    intros pre h post -> Hpre Hh. now apply scan_first.
Qed.

End GetShaFacts.

(** ** GitHubPublisher.publish *)

Section PublishFacts.

Import GitHubPublisher.
Local Open Scope list_scope.

Variable host : Host.
Variable w : World.
Variable self : self_.

Lemma attempted_app (l1 l2 : list event) :
  attempted (l1 ++ l2) = attempted l1 ++ attempted l2.
Proof. unfold attempted. now rewrite flat_map_app. Qed.

(** The loop stops at the first file whose [publish_file] raises. *)
Lemma for_each_app {A} (body : A -> IO.t unit) (l1 l2 : list A) (tr : trace) :
  IO.for_each (l1 ++ l2) body tr =
  match IO.for_each l1 body tr with
  | (Ok _, tr') => IO.for_each l2 body tr'
  | (Raise e, tr') => (Raise e, tr')
  end.
Proof.
  revert tr. induction l1 as [|x l1 IH]; intros tr; simpl; [reflexivity |].
  unfold IO.bind. destruct (body x tr) as [[[]|e] tr']; [apply IH | reflexivity].
Qed.

Lemma for_each_stops {A} (body : A -> IO.t unit) (done rest : list A) (f : A)
      (e : exn) (tr tr2 tr3 : trace) :
  IO.for_each done body tr = (Ok tt, tr2) ->
  body f tr2 = (Raise e, tr3) ->
  IO.for_each (done ++ f :: rest) body tr = (Raise e, tr3).
Proof.
  intros Hdone Hf. rewrite for_each_app, Hdone. simpl.
  unfold IO.bind. now rewrite Hf.
Qed.

(** Either every file is published, or there is a first one that fails. *)
Lemma for_each_outcome {A} (body : A -> IO.t unit) (files : list A) (tr : trace) :
  (exists tr2, IO.for_each files body tr = (Ok tt, tr2))
  \/ (exists done f rest e tr2 tr3,
         files = done ++ f :: rest
         /\ IO.for_each done body tr = (Ok tt, tr2)
         /\ body f tr2 = (Raise e, tr3)).
Proof.
  revert tr. induction files as [|x files IH]; intros tr.
  - left. now exists tr.
  - destruct (body x tr) as [[[]|e] tr1] eqn:Hx.
    + destruct (IH tr1) as [(tr2 & H) | (done & f & rest & e & tr2 & tr3 & -> & Hd & Hf)].
      * left. exists tr2. simpl. unfold IO.bind. now rewrite Hx.
      * right. exists (x :: done), f, rest, e, tr2, tr3.
        repeat split; [| exact Hf]. simpl. unfold IO.bind. now rewrite Hx.
    + right. exists [], x, files, e, tr, tr1. auto.
Qed.

(** What the loop over [done] adds to the trace when every file of
    [done] is published. *)
Lemma for_each_events (repo : Repository) (branch : string)
      (done : list string) (tr tr2 : trace) :
  IO.for_each done (fun f => publish_file w self repo f branch) tr = (Ok tt, tr2) ->
  exists evs, tr2 = tr ++ evs
              /\ filter is_merge evs = []
              /\ attempted evs = done.
Proof.
  revert tr. induction done as [|f done IH]; intros tr; simpl.
  - intros [= <-]. exists []. now rewrite app_nil_r.
  - unfold IO.bind.
    destruct (publish_file_events w self repo f branch tr)
      as (r & evs & Hrun & Hm & Ha).
    rewrite Hrun. destruct r as [[]|e]; [| discriminate].
    intros H. destruct (IH _ H) as (evs' & -> & Hm' & Ha').
    exists (evs ++ evs'). rewrite app_assoc. split; [reflexivity |].
    rewrite filter_app, Hm, Hm', attempted_app, Ha, Ha'. auto.
Qed.

(** C4.  [publish] logs in, gets the repository, and publishes the located
    files one after the other in list order.  If publishing a file raises,
    the same exception leaves [publish] at once: the trace ends where that
    file failed, with the files before it and that file attempted, no later
    file attempted and no merge.  If every file is published, the merge of
    master into gh-pages is the one call that follows, made once.  One of
    the two always happens. *)
Theorem publish_stops_at_first_failure
        (state : string) (datefilter : option string) (raw : bool)
        (tr0 : trace) (files : list string) :
  let login := Login (_username self) (_password self) in
  let get_repo := GetRepository "openelections" (results_repo_name state) in
  let repo := {| owner := "openelections"; name := results_repo_name state |} in
  let merge := Merge repo "gh-pages" "master" in
  let body := fun f => publish_file w self repo f "master" in
  let tr1 := tr0 ++ [login; get_repo] in
  BasePublisher.get_filenames host state datefilter raw None = Ok files ->
  respond w tr0 login = Ok tt ->
  respond w (tr0 ++ [login]) get_repo = Ok tt ->
  (forall done f rest e tr2 tr3,
      files = done ++ f :: rest ->
      IO.for_each done body tr1 = (Ok tt, tr2) ->
      body f tr2 = (Raise e, tr3) ->
      publish host w self state datefilter raw tr0 = (Raise e, tr3)
      /\ exists evs, tr3 = tr0 ++ evs
                     /\ filter is_merge evs = []
                     /\ attempted evs = done ++ [f])
  /\ (forall tr2,
         IO.for_each files body tr1 = (Ok tt, tr2) ->
         publish host w self state datefilter raw tr0
         = (respond w tr2 merge, tr2 ++ [merge])
         /\ exists evs, tr2 = tr0 ++ evs
                        /\ filter is_merge evs = []
                        /\ attempted evs = files)
  /\ ((exists tr2, IO.for_each files body tr1 = (Ok tt, tr2))
      \/ (exists done f rest e tr2 tr3,
             files = done ++ f :: rest
             /\ IO.for_each done body tr1 = (Ok tt, tr2)
             /\ body f tr2 = (Raise e, tr3))).
Proof.
  intros login get_repo repo merge body tr1 Hfiles Hlogin Hrepo.
  assert (Hpub : publish host w self state datefilter raw tr0 =
                 match IO.for_each files body tr1 with
                 | (Ok _, tr2) => (respond w tr2 merge, tr2 ++ [merge])
                 | (Raise e, tr2) => (Raise e, tr2)
                 end).
  { unfold publish, IO.bind, IO.call, IO.lift.
    fold login. rewrite Hlogin. fold get_repo. rewrite Hrepo, Hfiles.
    norm_trace. fold tr1. fold repo. fold body. fold merge.
    destruct (IO.for_each files body tr1) as [[[]|e] tr2]; reflexivity. }
  split; [| split].
  - intros done f rest e tr2 tr3 -> Hdone Hf.
    rewrite Hpub, (for_each_stops body done rest f e tr1 tr2 tr3 Hdone Hf).
    split; [reflexivity |].
    destruct (for_each_events repo "master" done tr1 tr2 Hdone)
      as (evs & -> & Hm & Ha).
    destruct (publish_file_events w self repo f "master" (tr1 ++ evs))
      as (r & evs' & Hrun & Hm' & Ha').
    unfold body in Hf. rewrite Hrun in Hf. injection Hf as _ <-.
    exists ([login; get_repo] ++ evs ++ evs').
    unfold tr1. rewrite <- !app_assoc. split; [reflexivity |].
    rewrite !filter_app, !attempted_app, Hm, Hm', Ha, Ha'. auto.
  - intros tr2 Hall. rewrite Hpub, Hall. split; [reflexivity |].
    destruct (for_each_events repo "master" files tr1 tr2 Hall)
      as (evs & -> & Hm & Ha).
    exists ([login; get_repo] ++ evs).
    unfold tr1. rewrite <- !app_assoc. split; [reflexivity |].
    rewrite filter_app, attempted_app, Hm, Ha. auto.
  - apply for_each_outcome.
Qed.

End PublishFacts.

(** ** posixpath.split *)

Section SplitFacts.

Import Str.



Lemma rstrip_append_sep (s : string) (c : ascii) :
  rstrip (s ++ String c "") c = rstrip s c.
Proof.
  induction s as [|a s IH]; simpl; [now rewrite Ascii.eqb_refl |].
  now rewrite IH.
Qed.

Lemma rstrip_repeat (c : ascii) (n : nat) : rstrip (repeat c n) c = "".
Proof.
  induction n as [|n IH]; simpl; [reflexivity |].
  now rewrite IH, Ascii.eqb_refl.
Qed.


Lemma rfind_append_last (h t : string) (c : ascii) :
  mem c t = false ->
  rfind (h ++ String c t) c = Z.of_nat (String.length h).
Proof.
  intros Ht. induction h as [|a h IH].
  - simpl. apply rfind_absent in Ht. rewrite Ht. simpl.
    now rewrite Ascii.eqb_refl.
  - cbn [append rfind String.length]. rewrite IH.
    destruct (0 <=? Z.of_nat (String.length h))%Z eqn:E; [lia |].
    apply Z.leb_gt in E. lia.
Qed.





(** Splitting a path whose last separator follows a directory that is not
    the root. *)
Lemma split_at_last (x g : string) :
  mem "/" g = false ->
  rstrip (x ++ "/") "/" <> "" ->
  posixpath.split (x ++ "/" ++ g) = (rstrip (x ++ "/") "/", g).
Proof.
  intros Hg Hx. unfold posixpath.split, slice_to, slice_from, posixpath.sep.
  change (x ++ "/" ++ g) with (x ++ String "/" g).
  rewrite (rfind_append_last x g "/" Hg).
  replace (Z.to_nat (Z.of_nat (String.length x) + 1))
    with (String.length (x ++ "/")) by (rewrite length_append; simpl; lia).
  replace (x ++ String "/" g) with ((x ++ "/") ++ g)
    by (now rewrite append_assoc).
  rewrite take_length_append, drop_length_append.
  assert (Ht : truthy (x ++ "/") = true) by (now destruct x).
  rewrite Ht. cbn [andb].
  destruct (String.eqb_spec (x ++ "/")
              (repeat "/" (String.length (x ++ "/")))) as [E | E];
    cbn [negb]; [| reflexivity].
  exfalso. apply Hx. rewrite E. apply rstrip_repeat.
Qed.

(** The pattern for a file name under a directory [d] that is neither
    empty nor the root splits into [d] without its trailing separators
    and the file name. *)
Lemma split_join (d g : string) :
  rstrip d "/" <> "" -> mem "/" g = false ->
  posixpath.split (posixpath.join d g) = (rstrip d "/", g)
  /\ exists x, posixpath.join d g = x ++ "/" ++ g.
Proof.
  intros Hd Hg.
  assert (Htruthy : truthy d = true) by (destruct d; [now elim Hd | reflexivity]).
  destruct (endswith d "/") eqn:He.
  - destruct (endswith_suffix d "/" He) as [pre Hpre].
    assert (Hj : posixpath.join d g = pre ++ "/" ++ g).
    { unfold posixpath.join.
      destruct (startswith g "/") eqn:Hs;
        [apply startswith_sep_mem in Hs; congruence |].
      rewrite He, orb_true_r, Hpre. apply append_assoc. }
    rewrite Hj. split; [| now exists pre].
    rewrite split_at_last; rewrite <- ?Hpre; auto.
  - rewrite (join_name d g Htruthy He Hg). split; [| now exists d].
    rewrite split_at_last; rewrite ?rstrip_append_sep; auto.
Qed.








End SplitFacts.

(** ** glob and ResultFileFinder.get_filenames *)

Section GlobFacts.

Import Str.

Variable host : Host.


Lemma has_magic_append (s t : string) :
  glob.has_magic (s ++ t) = glob.has_magic s || glob.has_magic t.
Proof.
  unfold glob.has_magic. rewrite !mem_append.
  destruct (mem "*" s), (mem "?" s), (mem "[" s), (mem "*" t), (mem "?" t);
    reflexivity.
Qed.
















End GlobFacts.

Section GetFilenamesFacts.

Import Str ResultFileFinder.

Variable host : Host.

(** The file part of the pattern holds no separator when the state and
    the date filter hold none, and always holds a wildcard. *)
Lemma file_pattern_facts (state ext : string) (datefilter : option string)
      (raw : bool) :
  let g := (spec_date_segment datefilter ++ "__" ++ state ++ "__" ++ "*"
              ++ (if raw then "__raw" else "")) ++ ext in
  glob.has_magic g = true
  /\ (mem "/" state = false ->
      (forall f, datefilter = Some f -> mem "/" f = false) ->
      mem "/" ext = false ->
      mem "/" g = false).
Proof.
  cbv zeta. split.
  - rewrite !has_magic_append.
    replace (glob.has_magic ("*" ++ (if raw then "__raw" else ""))) with true
      by (now destruct raw).
    now rewrite !orb_true_r.
  - intros Hs Hd He. rewrite !mem_append, Hs, He.
    replace (mem "/" (spec_date_segment datefilter)) with false.
    + now destruct raw.
    + unfold spec_date_segment. destruct datefilter as [f |]; [| reflexivity].
      destruct (String.length f <? 6)%nat; rewrite ?mem_append, (Hd f eq_refl);
        reflexivity.
Qed.






End GetFilenamesFacts.

(** ** The sample host and worlds *)

Section SampleRuns.

Import GitHubPublisher.
Local Open Scope list_scope.

Lemma get_sha_first_match_witness :
  fst (get_sha Sample.quiet Sample.repo "clean/20140101__ny__general.csv"
               "master" [])
  = Ok (Some "a94a").
Proof.
  destruct (get_sha_first_match Sample.quiet Sample.repo
              "clean/20140101__ny__general.csv" "master" [] Sample.tree
              eq_refl eq_refl)
    as (found & Hrun & _ & Hfirst & _).
  rewrite Hrun. cbn [fst]. f_equal.
  apply (Hfirst [Sample.first_entry] Sample.second_entry [Sample.third_entry]).
  - reflexivity.
  - intros x [<- | []]. discriminate.
  - reflexivity.
Defined.


Lemma publish_file_notifications_witness :
  let pre := fun f => Send "pre_publish" "GitHubPublisher" f in
  let post := fun f => Send "post_publish" "GitHubPublisher" f in
  let fetch := fun f =>
    [pre f; Open f "r"; Read f; GetTree Sample.repo "master";
     Recurse Sample.repo "master"] in
  let update :=
    UpdateFile Sample.repo "clean/20140101__ny__general.csv"
               "Update file clean/20140101__ny__general.csv" "votes" "a94a" in
  let create :=
    CreateFile Sample.repo "clean/20141104__ny__general.csv"
               "Create file clean/20141104__ny__general.csv" "votes" in
  publish_file Sample.quiet Sample.publisher Sample.repo Sample.first_file
               "master" []
  = (Ok tt,
     fetch Sample.first_file
     ++ [update; Close Sample.first_file; post Sample.first_file])
  /\ publish_file Sample.quiet Sample.publisher Sample.repo Sample.second_file
                  "master" []
     = (Ok tt,
        fetch Sample.second_file
        ++ [create; Close Sample.second_file; post Sample.second_file])
  /\ publish_file Sample.read_only Sample.publisher Sample.repo
                  Sample.first_file "master" []
     = (Raise (ExternalError "refused"),
        fetch Sample.first_file ++ [update; Close Sample.first_file])
  /\ publish_file Sample.read_only Sample.publisher Sample.repo
                  Sample.second_file "master" []
     = (Raise (ExternalError "refused"),
        fetch Sample.second_file ++ [create; Close Sample.second_file]).
Proof.
  intros pre post fetch update create.
  assert (Hfirst : scan Sample.tree (get_path Sample.first_file) = Some "a94a")
    by (vm_compute; reflexivity).
  assert (Hsecond : scan Sample.tree (get_path Sample.second_file) = None)
    by (vm_compute; reflexivity).
  assert (Hne : "a94a" <> EmptyString) by discriminate.
  split; [| split; [| split]].
  - destruct (publish_file_notifications Sample.quiet Sample.publisher
                Sample.repo Sample.first_file "master" []) as [_ Hrun].
    specialize (Hrun "votes" Sample.tree
                     ltac:(vm_compute; reflexivity)
                     ltac:(vm_compute; reflexivity)
                     ltac:(vm_compute; reflexivity)
                     ltac:(vm_compute; reflexivity)
                     ltac:(vm_compute; reflexivity)).
    destruct Hrun as [Hupdate _].
    destruct (Hupdate "a94a" Hfirst Hne) as [Hdone _].
    rewrite Hdone by (vm_compute; reflexivity).
    vm_compute; reflexivity.
  - destruct (publish_file_notifications Sample.quiet Sample.publisher
                Sample.repo Sample.second_file "master" []) as [_ Hrun].
    specialize (Hrun "votes" Sample.tree
                     ltac:(vm_compute; reflexivity)
                     ltac:(vm_compute; reflexivity)
                     ltac:(vm_compute; reflexivity)
                     ltac:(vm_compute; reflexivity)
                     ltac:(vm_compute; reflexivity)).
    destruct Hrun as [_ Hcreate].
    destruct (Hcreate (or_introl Hsecond)) as [Hdone _].
    rewrite Hdone by (vm_compute; reflexivity).
    vm_compute; reflexivity.
  - destruct (publish_file_notifications Sample.read_only Sample.publisher
                Sample.repo Sample.first_file "master" []) as [_ Hrun].
    specialize (Hrun "votes" Sample.tree
                     ltac:(vm_compute; reflexivity)
                     ltac:(vm_compute; reflexivity)
                     ltac:(vm_compute; reflexivity)
                     ltac:(vm_compute; reflexivity)
                     ltac:(vm_compute; reflexivity)).
    destruct Hrun as [Hupdate _].
    destruct (Hupdate "a94a" Hfirst Hne) as [_ Hrefused].
    rewrite (Hrefused (ExternalError "refused"))
      by (vm_compute; reflexivity).
    vm_compute; reflexivity.
  - destruct (publish_file_notifications Sample.read_only Sample.publisher
                Sample.repo Sample.second_file "master" []) as [_ Hrun].
    specialize (Hrun "votes" Sample.tree
                     ltac:(vm_compute; reflexivity)
                     ltac:(vm_compute; reflexivity)
                     ltac:(vm_compute; reflexivity)
                     ltac:(vm_compute; reflexivity)
                     ltac:(vm_compute; reflexivity)).
    destruct Hrun as [_ Hcreate].
    destruct (Hcreate (or_introl Hsecond)) as [_ Hrefused].
    rewrite (Hrefused (ExternalError "refused"))
      by (vm_compute; reflexivity).
    vm_compute; reflexivity.
Defined.

Lemma publish_stops_at_first_failure_witness :
  exists tr3,
    publish Sample.host Sample.second_unreadable Sample.publisher
            "ny" None false []
    = (Raise (IOError Sample.second_file), tr3)
    /\ filter is_merge tr3 = []
    /\ attempted tr3 = [Sample.first_file; Sample.second_file].
Proof.
  assert (Hfiles : BasePublisher.get_filenames Sample.host "ny" None false None
                   = Ok [Sample.first_file; Sample.second_file;
                         Sample.third_file])
    by (vm_compute; reflexivity).
  destruct (publish_stops_at_first_failure Sample.host Sample.second_unreadable
              Sample.publisher "ny" None false []
              [Sample.first_file; Sample.second_file; Sample.third_file]
              Hfiles eq_refl eq_refl)
    as [Hfail _].
  set (body := fun f => publish_file Sample.second_unreadable Sample.publisher
                          Sample.repo f "master") in *.
  set (tr1 := [] ++ [Login "user" "secret";
                     GetRepository "openelections" "openelections-results-ny"]).
  assert (Hdone : IO.for_each [Sample.first_file] body tr1
                  = (Ok tt, snd (IO.for_each [Sample.first_file] body tr1)))
    by (vm_compute; reflexivity).
  assert (Hf : body Sample.second_file
                 (snd (IO.for_each [Sample.first_file] body tr1))
               = (Raise (IOError Sample.second_file),
                  snd (body Sample.second_file
                         (snd (IO.for_each [Sample.first_file] body tr1)))))
    by (vm_compute; reflexivity).
  destruct (Hfail [Sample.first_file] Sample.second_file [Sample.third_file]
              _ _ _ eq_refl Hdone Hf)
    as (Hpub & evs & Hevs & Hm & Ha).
  eexists. split; [exact Hpub |].
  cbn [app] in Hevs. rewrite <- Hevs in Hm, Ha. auto.
Defined.

End SampleRuns.

Section SampleSearches.

Import Str ResultFileFinder.






End SampleSearches.

(** * Further properties *)

(** ** get_path and the directory of the file *)

Section GetPathDirectoryFacts.

Import Str GitHubPublisher.

Lemma rfind_upper_bound (s : string) (c : ascii) :
  (rfind s c < Z.of_nat (String.length s))%Z.
Proof.
  induction s as [|a s IH]; simpl String.length; [simpl; lia |].
  cbn [rfind]. destruct (0 <=? rfind s c)%Z; [lia |].
  destruct (Ascii.eqb a c); lia.
Qed.

Lemma rfind_append (x y : string) (c : ascii) :
  rfind (x ++ y) c =
  if (0 <=? rfind y c)%Z then (Z.of_nat (String.length x) + rfind y c)%Z
  else rfind x c.
Proof.
  induction x as [|a x IH].
  - simpl. destruct (0 <=? rfind y c)%Z eqn:E; [reflexivity |].
    apply Z.leb_gt in E. pose proof (rfind_lower_bound y c). lia.
  - cbn [append rfind String.length]. rewrite IH.
    destruct (0 <=? rfind y c)%Z eqn:E; [| reflexivity].
    apply Z.leb_le in E.
    destruct (0 <=? Z.of_nat (String.length x) + rfind y c)%Z eqn:E';
      [lia | apply Z.leb_gt in E'; lia].
Qed.

Lemma take_append (x y : string) (n : nat) :
  take (String.length x + n) (x ++ y) = x ++ take n y.
Proof. induction x as [|a x IH]; simpl; [reflexivity | now rewrite IH]. Qed.

Lemma drop_append (x y : string) (n : nat) :
  drop (String.length x + n) (x ++ y) = drop n y.
Proof. induction x as [|a x IH]; simpl; [reflexivity | exact IH]. Qed.

Lemma leading_dots_shift (x y : string) (n : nat) :
  forall k, (0 <= k)%Z ->
    posixpath.leading_dots_only (x ++ y) (Z.of_nat (String.length x) + k) n
    = posixpath.leading_dots_only y k n.
Proof.
  induction n as [|n IH]; intros k Hk; [reflexivity |].
  cbn [posixpath.leading_dots_only]. unfold slice1, slice_from.
  replace (Z.to_nat (Z.of_nat (String.length x) + k))
    with (String.length x + Z.to_nat k) by lia.
  rewrite drop_append.
  replace (Z.of_nat (String.length x) + k + 1)%Z
    with (Z.of_nat (String.length x) + (k + 1))%Z by lia.
  rewrite IH by lia. reflexivity.
Qed.

Lemma append_last_inj (x y : string) (a b : ascii) :
  x ++ String a "" = y ++ String b "" -> x = y /\ a = b.
Proof.
  revert y. induction x as [|c x IH]; intros [|d y] H; simpl in H.
  - now injection H.
  - injection H as _ H. now destruct y.
  - injection H as _ H. now destruct x.
  - injection H as -> H. destruct (IH y H) as [-> ->]. auto.
Qed.

(** A directory in front of a name does not change where the extension
    of the name starts. *)
Lemma splitext_under_dir (h b : string) :
  mem "/" b = false ->
  posixpath.splitext ((h ++ "/") ++ b)
  = ((h ++ "/") ++ fst (posixpath.splitext b), snd (posixpath.splitext b)).
Proof.
  intros Hb. set (dir := h ++ "/").
  assert (Hlen : String.length dir = S (String.length h))
    by (unfold dir; rewrite length_append; simpl; lia).
  assert (Hsep : rfind (dir ++ b) "/" = Z.of_nat (String.length h)).
  { unfold dir. rewrite append_assoc. now apply rfind_append_last. }
  assert (Hsepb : rfind b "/" = (-1)%Z) by (now apply rfind_absent).
  pose proof (rfind_lower_bound b ".") as Hlb.
  pose proof (rfind_upper_bound h ".") as Hub.
  unfold posixpath.splitext, posixpath.sep, posixpath.extsep.
  rewrite Hsep, Hsepb, (rfind_append dir b ".").
  destruct (0 <=? rfind b ".")%Z eqn:Hr.
  - apply Z.leb_le in Hr. rewrite Hlen.
    replace (Z.of_nat (String.length h) <? Z.of_nat (S (String.length h)) + rfind b ".")%Z
      with true by (symmetry; apply Z.ltb_lt; lia).
    replace (-1 <? rfind b ".")%Z with true by (symmetry; apply Z.ltb_lt; lia).
    replace (Z.of_nat (String.length h) + 1)%Z
      with (Z.of_nat (String.length dir) + 0)%Z by lia.
    change (-1 + 1)%Z with 0%Z.
    replace (Z.of_nat (S (String.length h)) + rfind b "."
             - (Z.of_nat (String.length dir) + 0))%Z
      with (rfind b "." - 0)%Z by lia.
    rewrite leading_dots_shift by lia.
    destruct (posixpath.leading_dots_only b 0 _); [reflexivity |].
    cbn [fst snd]. unfold slice_to, slice_from.
    replace (Z.to_nat (Z.of_nat (S (String.length h)) + rfind b "."))
      with (String.length dir + Z.to_nat (rfind b ".")) by lia.
    now rewrite take_append, drop_append.
  - apply Z.leb_gt in Hr.
    assert (Hdot : rfind dir "." = rfind h ".")
      by (unfold dir; now rewrite rfind_append).
    rewrite Hdot.
    replace (Z.of_nat (String.length h) <? rfind h ".")%Z with false
      by (symmetry; apply Z.ltb_ge; lia).
    replace (-1 <? rfind b ".")%Z with false
      by (symmetry; apply Z.ltb_ge; lia).
    reflexivity.
Qed.

(** A directory in front does not make a base end with "raw", nor stop
    it from doing so. *)
Lemma endswith_raw_under_dir (h s : string) :
  endswith ((h ++ "/") ++ s) "raw" = endswith s "raw".
Proof.
  destruct (Nat.leb_spec 3 (String.length s)) as [Hlong | Hshort].
  - unfold endswith. rewrite length_append.
    change (String.length "raw") with 3.
    replace (String.length (h ++ "/") + String.length s - 3)
      with (String.length (h ++ "/") + (String.length s - 3)) by lia.
    rewrite drop_append.
    replace (3 <=? String.length (h ++ "/") + String.length s)%nat with true
      by (symmetry; apply Nat.leb_le; lia).
    replace (3 <=? String.length s)%nat with true
      by (symmetry; apply Nat.leb_le; lia).
    reflexivity.
  - assert (Hs : endswith s "raw" = false).
    { unfold endswith. change (String.length "raw") with 3.
      replace (3 <=? String.length s)%nat with false
        by (symmetry; apply Nat.leb_gt; lia).
      reflexivity. }
    rewrite Hs. clear Hs.
    destruct (endswith ((h ++ "/") ++ s) "raw") eqn:E; [| reflexivity].
    exfalso. apply endswith_suffix in E as [pre E].
    destruct s as [|a [|b [|c s]]]; [| | | simpl in Hshort; lia].
    + rewrite append_nil_r in E.
      change (pre ++ "raw") with (pre ++ String "r" (String "a" (String "w" ""))) in E.
      replace (pre ++ String "r" (String "a" (String "w" "")))
        with ((pre ++ "ra") ++ String "w" "") in E
        by (now rewrite append_assoc).
      apply append_last_inj in E as [_ E]. discriminate E.
    + replace (pre ++ "raw") with ((pre ++ "ra") ++ String "w" "") in E
        by (now rewrite append_assoc).
      apply append_last_inj in E as [E _].
      replace (pre ++ "ra") with ((pre ++ "r") ++ String "a" "") in E
        by (now rewrite append_assoc).
      apply append_last_inj in E as [_ E]. discriminate E.
    + replace ((h ++ "/") ++ String a (String b ""))
        with (((h ++ "/") ++ String a "") ++ String b "") in E
        by (now rewrite append_assoc).
      replace (pre ++ "raw") with ((pre ++ "ra") ++ String "w" "") in E
        by (now rewrite append_assoc).
      apply append_last_inj in E as [E _].
      replace (pre ++ "ra") with ((pre ++ "r") ++ String "a" "") in E
        by (now rewrite append_assoc).
      apply append_last_inj in E as [E _].
      apply append_last_inj in E as [_ E]. discriminate E.
Qed.

Lemma basename_no_sep (b : string) :
  mem "/" b = false -> posixpath.basename b = b.
Proof.
  intros Hb. unfold posixpath.basename, slice_from, posixpath.sep.
  apply rfind_absent in Hb. now rewrite Hb.
Qed.

(** X1.  The repository path of a file depends on the file's last path
    segment only: the directory it lies in plays no part, although
    [get_path] splits the extension off the whole path. *)
Theorem get_path_ignores_directory (filename : string) :
  get_path filename = get_path (posixpath.basename filename).
Proof.
  destruct (basename_spec filename) as (dir & Hf & Hdir & Hmem).
  set (b := posixpath.basename filename) in *.
  rewrite (get_path_unfold b), (basename_no_sep b Hmem), get_path_unfold.
  fold b. f_equal.
  destruct Hdir as [-> | Hends]; [now rewrite Hf at 1 |].
  apply endswith_suffix in Hends as [h ->].
  rewrite Hf at 1. rewrite splitext_under_dir by exact Hmem. cbn [fst].
  now rewrite endswith_raw_under_dir.
Qed.

Lemma basename_get_path (filename : string) :
  posixpath.basename (get_path filename) = posixpath.basename filename.
Proof.
  destruct (basename_spec filename) as (_ & _ & _ & Hmem).
  rewrite get_path_unfold.
  set (b := posixpath.basename filename) in *.
  unfold posixpath.basename, slice_from, posixpath.sep.
  destruct (endswith _ "raw").
  - change ("raw/" ++ b) with ("raw" ++ String "/" b).
    rewrite (rfind_append_last "raw" b "/" Hmem). reflexivity.
  - change ("clean/" ++ b) with ("clean" ++ String "/" b).
    rewrite (rfind_append_last "clean" b "/" Hmem). reflexivity.
Qed.

(** X2.  A repository path is its own repository path: publishing from a
    directory laid out like the repository keeps every file in place. *)
Theorem get_path_idempotent (filename : string) :
  get_path (get_path filename) = get_path filename.
Proof.
  rewrite (get_path_ignores_directory (get_path filename)).
  rewrite basename_get_path.
  symmetry. apply get_path_ignores_directory.
Qed.

(** X3.  Splitting a repository path gives back the category directory,
    [RAW_PREFIX] or [CLEAN_PREFIX], and the file's last path segment. *)
Theorem split_get_path (filename : string) :
  posixpath.split (get_path filename)
  = (if endswith (fst (posixpath.splitext filename)) "raw"
     then RAW_PREFIX else CLEAN_PREFIX,
     posixpath.basename filename).
Proof.
  destruct (basename_spec filename) as (_ & _ & _ & Hmem).
  rewrite get_path_unfold.
  destruct (endswith _ "raw").
  - change ("raw/" ++ posixpath.basename filename)
      with ("raw" ++ "/" ++ posixpath.basename filename).
    rewrite split_at_last; [reflexivity | exact Hmem | discriminate].
  - change ("clean/" ++ posixpath.basename filename)
      with ("clean" ++ "/" ++ posixpath.basename filename).
    rewrite split_at_last; [reflexivity | exact Hmem | discriminate].
Qed.

End GetPathDirectoryFacts.

(** ** results_dir, build_glob and get_filenames on a plain directory *)

Section FinderDirectoryFacts.

Import Str ResultFileFinder.

Variable host : Host.

(** X4.  Whatever [COUNTRY_DIR] is, the results directory is a path whose last
    segment is "bakery". *)
Theorem results_dir_basename :
  posixpath.basename (results_dir host) = "bakery".
Proof.
  unfold results_dir, posixpath.join.
  change (startswith "bakery" "/") with false. cbv iota.
  destruct (truthy (COUNTRY_DIR host)) eqn:Ht; cbn [negb orb].
  - destruct (endswith (COUNTRY_DIR host) "/") eqn:He.
    + apply endswith_suffix in He as [h ->].
      unfold posixpath.basename, slice_from, posixpath.sep.
      rewrite append_assoc. change ("/" ++ "bakery") with (String "/" "bakery").
      rewrite (rfind_append_last h "bakery" "/" eq_refl).
      replace (Z.to_nat (Z.of_nat (String.length h) + 1))
        with (String.length h + 1) by lia.
      now rewrite drop_append.
    + unfold posixpath.basename, slice_from, posixpath.sep.
      change ("/" ++ "bakery") with (String "/" "bakery").
      rewrite (rfind_append_last (COUNTRY_DIR host) "bakery" "/" eq_refl).
      replace (Z.to_nat (Z.of_nat (String.length (COUNTRY_DIR host)) + 1))
        with (String.length (COUNTRY_DIR host) + 1) by lia.
      now rewrite drop_append.
  - destruct (COUNTRY_DIR host); [reflexivity | discriminate Ht].
Qed.

(** X5.  A date filter that starts with a slash makes the pattern absolute:
    the search directory is dropped from it. *)
Theorem build_glob_absolute_date_filter
        (state search_dir search_dir' ext d : string) (raw : bool) :
  startswith d "/" = true ->
  build_glob state search_dir ext (Some d) raw
  = build_glob state search_dir' ext (Some d) raw
  /\ startswith (build_glob state search_dir ext (Some d) raw) d = true.
Proof.
  intros Hd. rewrite !build_glob_file_part.
  destruct d as [|c d]; [discriminate |].
  unfold startswith in Hd. cbn [prefix] in Hd.
  destruct (ascii_dec "/" c) as [<- |]; [| discriminate Hd].
  assert (Hj : forall sd g, posixpath.join sd (String "/" g) = String "/" g).
  { intros sd g. unfold posixpath.join, startswith. cbn [prefix].
    destruct (ascii_dec "/" "/") as [_ | N]; [now destruct g | now elim N]. }
  unfold spec_date_segment.
  destruct (String.length (String "/" d) <? 6)%nat; cbn [append];
    rewrite !Hj; (split; [reflexivity |]);
    unfold startswith; cbn [prefix];
    (destruct (ascii_dec "/" "/") as [_ | N]; [| now elim N]).
  - clear. induction d as [|a d IH]; cbn [append prefix]; [reflexivity |].
    destruct (ascii_dec a a) as [_ | N]; [exact IH | now elim N].
  - clear. induction d as [|a d IH]; cbn [append prefix]; [reflexivity |].
    destruct (ascii_dec a a) as [_ | N]; [exact IH | now elim N].
Qed.

Lemma build_glob_absolute_date_filter_witness :
  build_glob "ny" "/data/us/bakery" ".csv" (Some "/tmp/2014") false
  = "/tmp/2014__ny__*.csv".
Proof.
  destruct (build_glob_absolute_date_filter "ny" "/data/us/bakery" ""
              ".csv" "/tmp/2014" false eq_refl) as [-> _].
  reflexivity.
Defined.

(** X6.  When the state and the date filter hold no separator and the search
    directory is not the root, every pattern splits into the search
    directory without its trailing slashes and a file part that holds a
    wildcard and no separator. *)
Theorem split_build_glob (state search_dir ext : string)
        (datefilter : option string) (raw : bool) :
  rstrip search_dir "/" <> "" ->
  mem "/" state = false ->
  (forall f, datefilter = Some f -> mem "/" f = false) ->
  mem "/" ext = false ->
  let file_part :=
    (spec_date_segment datefilter ++ "__" ++ state ++ "__" ++ "*"
       ++ (if raw then "__raw" else "")) ++ ext in
  posixpath.split (build_glob state search_dir ext datefilter raw)
  = (rstrip search_dir "/", file_part)
  /\ posixpath.basename (build_glob state search_dir ext datefilter raw)
     = file_part
  /\ glob.has_magic file_part = true.
Proof.
  intros Hd Hs Hf He file_part.
  destruct (file_pattern_facts state ext datefilter raw) as [Hm Hsep].
  cbv zeta in Hm, Hsep. specialize (Hsep Hs Hf He). fold file_part in Hm, Hsep.
  rewrite build_glob_file_part. fold file_part.
  destruct (split_join search_dir file_part Hd Hsep) as [Hsplit [x Hx]].
  split; [exact Hsplit |]. split; [| exact Hm].
  rewrite Hx. unfold posixpath.basename, slice_from, posixpath.sep.
  change ("/" ++ file_part) with (String "/" file_part).
  rewrite (rfind_append_last x file_part "/" Hsep).
  replace (Z.to_nat (Z.of_nat (String.length x) + 1))
    with (String.length (x ++ "/")) by (rewrite length_append; simpl; lia).
  replace (x ++ String "/" file_part) with ((x ++ "/") ++ file_part)
    by (now rewrite append_assoc).
  apply drop_length_append.
Qed.

Lemma split_build_glob_witness :
  posixpath.split (build_glob "ny" "/data/us/bakery//" ".json" (Some "2014") true)
  = ("/data/us/bakery", "2014*__ny__*__raw.json").
Proof.
  apply (split_build_glob "ny" "/data/us/bakery//" ".json" (Some "2014") true).
  - discriminate.
  - reflexivity.
  - intros f [= <-]. reflexivity.
  - reflexivity.
Defined.




End FinderDirectoryFacts.


(** ** publish_file and publish: failures, the open file, and counts *)

Section PublishFileFurtherFacts.

Import GitHubPublisher.
Local Open Scope list_scope.

Variable w : World.
Variable self : self_.
Variable repo : Repository.
Variables filename branch : string.

Let pre := Send "pre_publish" (class_ self) filename.
Let post := Send "post_publish" (class_ self) filename.

(** X8.  When the local file cannot be opened or cannot be read, the error
    leaves [publish_file] as it is, nothing is asked of the repository and
    [post_publish] is not sent; a file that was opened is closed. *)
Theorem publish_file_local_failure (tr : trace) (e : exn) :
  respond w tr pre = Ok tt ->
  (respond w (tr ++ [pre]) (Open filename "r") = Raise e ->
   publish_file w self repo filename branch tr
   = (Raise e, tr ++ [pre; Open filename "r"]))
  /\ (respond w (tr ++ [pre]) (Open filename "r") = Ok tt ->
      file_text w (tr ++ [pre; Open filename "r"]) filename = Raise e ->
      publish_file w self repo filename branch tr
      = (Raise e, tr ++ [pre; Open filename "r"; Read filename;
                         Close filename])).
Proof.
  intros Hpre. split.
  - intros Hopen.
    unfold publish_file, IO.with_open, IO.bind, IO.call. fold pre.
    rewrite Hpre, Hopen. norm_trace. reflexivity.
  - intros Hopen Hread.
    unfold publish_file, IO.with_open, IO.bind, IO.call, IO.read. fold pre.
    rewrite Hpre, Hopen. norm_trace. rewrite Hread. norm_trace. reflexivity.
Qed.

(** X9.  The file is open around everything else [publish_file] does with it:
    unless the run stops at the [pre_publish] send or at opening the file,
    the file is closed exactly once, after the read and every remote call,
    whether these return or raise, and only [post_publish] may follow. *)
Theorem publish_file_closes_file (tr : trace) :
  exists r evs,
    publish_file w self repo filename branch tr = (r, tr ++ pre :: evs)
    /\ (((evs = [] \/ evs = [Open filename "r"])
         /\ exists e, r = Raise e)
        \/ exists inside after,
             evs = Open filename "r" :: inside ++ Close filename :: after
             /\ filter is_close inside = []
             /\ (after = [] \/ after = [post])
             /\ filter is_remote after = []).
Proof.
  destruct (publish_file_cases w self repo filename branch tr)
    as (r & evs & Hrun & Hcases).
  exists r, evs. split; [exact Hrun |].
  destruct Hcases as [(e & -> & Hevs) | (content & tree & _ & _ & Hwr)].
  - destruct Hevs as [-> | [-> | [-> | [-> | ->]]]].
    + left. split; [now left | now exists e].
    + left. split; [now right | now exists e].
    + right. exists [Read filename], []. auto.
    + right. exists [Read filename; GetTree repo branch], []. auto.
    + right.
      exists [Read filename; GetTree repo branch; Recurse repo branch], [].
      auto.
  - right. cbv zeta in Hwr.
    set (wr := write_call repo filename content
                          (scan tree (get_path filename))) in *.
    assert (Hw : is_close wr = false)
      by (unfold wr, write_call; now destruct (truthy _)).
    destruct (respond w _ wr) as [[]|e]; destruct Hwr as [_ ->].
    + exists [Read filename; GetTree repo branch; Recurse repo branch; wr],
        [post].
      cbn [app filter is_close]. rewrite Hw. auto.
    + exists [Read filename; GetTree repo branch; Recurse repo branch; wr], [].
      cbn [app filter is_close]. rewrite Hw. auto.
Qed.

(** X10.  An entry whose sha is the empty string counts as no file: the
    published file is created, not updated. *)
Theorem publish_file_empty_sha_creates (tr tr' tr_sha : trace) :
  publish_file w self repo filename branch tr = (Ok tt, tr') ->
  get_sha w repo (get_path filename) branch
          (tr ++ [pre; Open filename "r"; Read filename])
  = (Ok (Some EmptyString), tr_sha) ->
  exists content evs,
    tr' = tr ++ evs
    /\ filter is_write evs
       = [CreateFile repo (get_path filename)
                     ("Create file " ++ get_path filename)%string content].
Proof.
  intros Hrun Hsha.
  destruct (publish_file_cases w self repo filename branch tr)
    as (r & evs & Hrun' & Hcases).
  rewrite Hrun in Hrun'. injection Hrun' as <- ->.
  destruct Hcases as [(e & He & _) | (content & tree & _ & Hsha' & Hwr)];
    [discriminate He |].
  pose proof (eq_trans (eq_sym Hsha) Hsha') as E. injection E as Hscan _.
  cbv zeta in Hwr. rewrite <- Hscan in Hwr.
  unfold write_call in Hwr. cbn [truthy Str.truthy] in Hwr.
  destruct (respond w _ _) as [[]|e]; destruct Hwr as [Hr ->];
    [| discriminate Hr].
  exists content. eexists. split; reflexivity.
Qed.

(** What one published file adds to the trace: one tree fetch, one
    write, no merge. *)
Lemma publish_file_success_counts (tr tr' : trace) :
  publish_file w self repo filename branch tr = (Ok tt, tr') ->
  exists evs,
    tr' = tr ++ evs
    /\ length (filter is_fetch evs) = 1
    /\ length (filter is_write evs) = 1
    /\ filter is_merge evs = []
    /\ attempted evs = [filename].
Proof.
  intros Hrun.
  destruct (publish_file_cases w self repo filename branch tr)
    as (r & evs & Hrun' & Hcases).
  rewrite Hrun in Hrun'. injection Hrun' as <- ->.
  destruct Hcases as [(e & He & _) | (content & tree & _ & _ & Hwr)];
    [discriminate He |].
  cbv zeta in Hwr. unfold write_call in Hwr.
  exists (pre :: evs). split; [reflexivity |].
  destruct (truthy _); destruct (respond w _ _) as [[]|e];
    destruct Hwr as [Hr ->]; try discriminate Hr; repeat split; reflexivity.
Qed.

(** A published file adds its block and nothing else. *)
Lemma publish_file_success_block (tr tr' : trace) :
  publish_file w self repo filename branch tr = (Ok tt, tr') ->
  exists content tree,
    file_text w (tr ++ [pre; Open filename "r"]) filename = Ok content
    /\ tree_entries w (tr ++ [pre; Open filename "r"; Read filename;
                              GetTree repo branch]) repo branch = Ok tree
    /\ tr' = tr ++ published_block self repo branch filename content
                                   (scan tree (get_path filename)).
Proof.
  unfold publish_file, get_sha, IO.with_open, IO.bind, IO.call, IO.read,
    IO.recurse, IO.ret, published_block, write_call.
  fold pre post.
  destruct (respond w tr pre) as [[]|e]; norm_trace; [| discriminate].
  destruct (respond w (tr ++ [pre]) (Open filename "r")) as [[]|e];
    norm_trace; [| discriminate].
  destruct (file_text w (tr ++ [pre; Open filename "r"]) filename)
    as [content|e]; norm_trace; [| discriminate].
  destruct (respond w (tr ++ [pre; Open filename "r"; Read filename])
                    (GetTree repo branch)) as [[]|e]; norm_trace;
    [| discriminate].
  destruct (tree_entries w
              (tr ++ [pre; Open filename "r"; Read filename; GetTree repo branch])
              repo branch) as [tree|e]; norm_trace; [| discriminate].
  intros Hrun. exists content, tree. split; [reflexivity |].
  split; [reflexivity |].
  destruct (truthy (scan tree (get_path filename)));
    match type of Hrun with
    | context [match respond w ?t ?ev with _ => _ end] =>
        destruct (respond w t ev) as [[]|e]
    end; norm_trace; try discriminate Hrun;
    injection Hrun as _ <-; norm_trace; reflexivity.
Qed.

End PublishFileFurtherFacts.

Section PublishFurtherFacts.

Import GitHubPublisher.
Local Open Scope list_scope.

Variable host : Host.
Variable w : World.
Variable self : self_.

Lemma for_each_success_counts (repo : Repository) (branch : string)
      (files : list string) (tr tr2 : trace) :
  IO.for_each files (fun f => publish_file w self repo f branch) tr
  = (Ok tt, tr2) ->
  exists evs,
    tr2 = tr ++ evs
    /\ length (filter is_fetch evs) = length files
    /\ length (filter is_write evs) = length files
    /\ filter is_merge evs = []
    /\ attempted evs = files.
Proof.
  revert tr. induction files as [|f files IH]; intros tr; simpl.
  - intros [= <-]. exists []. now rewrite app_nil_r.
  - unfold IO.bind.
    destruct (publish_file w self repo f branch tr) as [[[]|e] tr1] eqn:Hf;
      [| discriminate].
    intros Hrest.
    destruct (publish_file_success_counts w self repo f branch tr tr1 Hf)
      as (evs & -> & Hfetch & Hwrite & Hm & Ha).
    destruct (IH _ Hrest) as (evs' & -> & Hfetch' & Hwrite' & Hm' & Ha').
    exists (evs ++ evs'). rewrite app_assoc. split; [reflexivity |].
    rewrite !filter_app, !length_app, attempted_app.
    rewrite Hfetch, Hwrite, Hfetch', Hwrite', Hm, Hm', Ha, Ha'. auto.
Qed.

Lemma for_each_success_blocks (repo : Repository) (branch : string)
      (files : list string) (tr tr2 : trace) :
  IO.for_each files (fun f => publish_file w self repo f branch) tr
  = (Ok tt, tr2) ->
  exists evs,
    tr2 = tr ++ evs /\ published w self repo branch tr files evs.
Proof.
  revert tr. induction files as [|f files IH]; intros tr; simpl.
  - intros [= <-]. exists []. split; [now rewrite app_nil_r | constructor].
  - unfold IO.bind.
    destruct (publish_file w self repo f branch tr) as [[[]|e] tr1] eqn:Hf;
      [| discriminate].
    intros Hrest.
    destruct (publish_file_success_block w self repo f branch tr tr1 Hf)
      as (content & tree & Htext & Htree & ->).
    destruct (IH _ Hrest) as (evs & -> & Hevs).
    eexists. split; [symmetry; apply app_assoc |].
    now apply published_cons.
Qed.

(** X11.  A [publish] that returns has logged in and looked the repository up
    once, then published each located file in order, and last merged master
    into gh-pages once.  Between the lookup and the merge the trace is one
    block for each located file, in the order of the files, and nothing
    else; the block of a file is: [pre_publish], open, read, the tree of
    master asked and fetched, one write of the text read (an update with
    the sha found in that tree, or a create), close, [post_publish].  So
    the tree is fetched once and one write is made for each file, and no
    merge comes before the last event. *)
Theorem publish_success_counts
        (state : string) (datefilter : option string) (raw : bool)
        (tr0 tr' : trace) (files : list string) :
  BasePublisher.get_filenames host state datefilter raw None = Ok files ->
  publish host w self state datefilter raw tr0 = (Ok tt, tr') ->
  let repo := {| owner := "openelections"; name := results_repo_name state |} in
  let session := [Login (_username self) (_password self);
                  GetRepository "openelections" (results_repo_name state)] in
  exists evs,
    tr' = tr0 ++ session ++ evs ++ [Merge repo "gh-pages" "master"]
    /\ published w self repo "master" (tr0 ++ session) files evs
    /\ attempted evs = files
    /\ length (filter is_fetch evs) = length files
    /\ length (filter is_write evs) = length files
    /\ filter is_merge evs = [].
Proof.
  intros Hfiles Hrun repo session.
  unfold publish, IO.bind, IO.call, IO.lift in Hrun.
  destruct (respond w tr0 _) as [[]|e]; [| discriminate Hrun].
  destruct (respond w (tr0 ++ _) _) as [[]|e]; [| discriminate Hrun].
  rewrite Hfiles in Hrun. fold repo in Hrun.
  destruct (IO.for_each files _ _) as [[[]|e] tr2] eqn:Hloop;
    [| discriminate Hrun].
  injection Hrun as _ <-.
  destruct (for_each_success_counts repo "master" files _ tr2 Hloop)
    as (evs & -> & Hfetch & Hwrite & Hm & Ha).
  destruct (for_each_success_blocks repo "master" files _ _ Hloop)
    as (evs' & Heq & Hblocks).
  apply app_inv_head in Heq. subst evs'.
  exists evs. unfold session. rewrite <- !app_assoc in *. cbn [app] in *.
  repeat split; auto.
Qed.

(** X12.  With no file to publish, [publish] still logs in, looks the
    repository up and merges master into gh-pages. *)
Theorem publish_nothing_still_merges
        (state : string) (datefilter : option string) (raw : bool)
        (tr0 : trace) :
  let login := Login (_username self) (_password self) in
  let get_repo := GetRepository "openelections" (results_repo_name state) in
  let repo := {| owner := "openelections"; name := results_repo_name state |} in
  let merge := Merge repo "gh-pages" "master" in
  BasePublisher.get_filenames host state datefilter raw None = Ok [] ->
  respond w tr0 login = Ok tt ->
  respond w (tr0 ++ [login]) get_repo = Ok tt ->
  publish host w self state datefilter raw tr0
  = (respond w (tr0 ++ [login; get_repo]) merge,
     tr0 ++ [login; get_repo; merge]).
Proof.
  intros login get_repo repo merge Hfiles Hlogin Hrepo.
  unfold publish, IO.bind, IO.call, IO.lift, IO.ret.
  fold login. rewrite Hlogin. fold get_repo. rewrite Hrepo, Hfiles.
  cbn [IO.for_each IO.ret]. norm_trace. fold repo. fold merge.
  destruct (respond w _ merge) as [[]|e]; reflexivity.
Qed.

(** X13.  When logging in or looking the repository up raises, [publish] ends
    there with that exception: no file is touched and nothing is merged. *)
Theorem publish_session_failure
        (state : string) (datefilter : option string) (raw : bool)
        (tr0 : trace) (e : exn) :
  let login := Login (_username self) (_password self) in
  let get_repo := GetRepository "openelections" (results_repo_name state) in
  (respond w tr0 login = Raise e ->
   publish host w self state datefilter raw tr0 = (Raise e, tr0 ++ [login]))
  /\ (respond w tr0 login = Ok tt ->
      respond w (tr0 ++ [login]) get_repo = Raise e ->
      publish host w self state datefilter raw tr0
      = (Raise e, tr0 ++ [login; get_repo])).
Proof.
  intros login get_repo. split.
  - intros Hlogin. unfold publish, IO.bind, IO.call. fold login.
    now rewrite Hlogin.
  - intros Hlogin Hrepo. unfold publish, IO.bind, IO.call. fold login.
    rewrite Hlogin. fold get_repo. rewrite Hrepo. norm_trace. reflexivity.
Qed.

End PublishFurtherFacts.

(** X14.  Two states get the same repository exactly when they are equal once
    lowercased. *)
Theorem results_repo_name_same_repository (j j' : string) :
  GitHubPublisher.results_repo_name j = GitHubPublisher.results_repo_name j'
  <-> Str.lower j = Str.lower j'.
Proof.
  unfold GitHubPublisher.results_repo_name. split.
  - intros H. simpl in H. now injection H.
  - now intros ->.
Qed.

(** ** Further sample runs *)

Section FurtherSampleRuns.

Import GitHubPublisher.
Local Open Scope list_scope.

Lemma publish_file_local_failure_witness :
  publish_file Sample.second_unreadable Sample.publisher Sample.repo
               Sample.second_file "master" []
  = (Raise (IOError Sample.second_file),
     [Send "pre_publish" "GitHubPublisher" Sample.second_file;
      Open Sample.second_file "r"; Read Sample.second_file;
      Close Sample.second_file]).
Proof.
  destruct (publish_file_local_failure Sample.second_unreadable
              Sample.publisher Sample.repo Sample.second_file "master" []
              (IOError Sample.second_file) eq_refl)
    as [_ Hread].
  apply Hread; reflexivity.
Defined.

Lemma publish_file_empty_sha_creates_witness :
  exists tr',
    publish_file Sample.blank_sha Sample.publisher Sample.repo
                 Sample.first_file "master" [] = (Ok tt, tr')
    /\ filter is_write tr'
       = [CreateFile Sample.repo "clean/20140101__ny__general.csv"
                     "Create file clean/20140101__ny__general.csv" "votes"].
Proof.
  set (run := publish_file Sample.blank_sha Sample.publisher Sample.repo
                           Sample.first_file "master" []).
  assert (Hrun : run = (Ok tt, snd run)) by (vm_compute; reflexivity).
  exists (snd run). split; [exact Hrun |].
  set (sha_run := get_sha Sample.blank_sha Sample.repo
                          (get_path Sample.first_file) "master"
                          ([] ++ [Send "pre_publish"
                                       (class_ Sample.publisher)
                                       Sample.first_file;
                                  Open Sample.first_file "r";
                                  Read Sample.first_file])).
  assert (Hsha : sha_run = (Ok (Some EmptyString), snd sha_run))
    by (vm_compute; reflexivity).
  destruct (publish_file_empty_sha_creates Sample.blank_sha Sample.publisher
              Sample.repo Sample.first_file "master" [] (snd run)
              (snd sha_run) Hrun Hsha)
    as (content & evs & Hevs & Hone).
  cbn [app] in Hevs. rewrite Hevs, Hone.
  assert (Hin : In (CreateFile Sample.repo (get_path Sample.first_file)
                               ("Create file " ++ get_path Sample.first_file)%string
                               content)
                   (filter is_write (snd run)))
    by (rewrite Hevs, Hone; now left).
  vm_compute in Hin. destruct Hin as [Hin | []].
  injection Hin as <-. reflexivity.
Defined.

Lemma publish_success_counts_witness :
  let block := published_block Sample.publisher Sample.repo "master" in
  publish Sample.host Sample.quiet Sample.publisher "ny" None false []
  = (Ok tt,
     [Login "user" "secret";
      GetRepository "openelections" "openelections-results-ny"]
     ++ block Sample.first_file "votes" (Some "a94a")
     ++ block Sample.second_file "votes" None
     ++ block Sample.third_file "votes" (Some "1f0c")
     ++ [Merge Sample.repo "gh-pages" "master"]).
Proof.
  intros block.
  set (run := publish Sample.host Sample.quiet Sample.publisher
                      "ny" None false []).
  assert (Hrun : run = (Ok tt, snd run)) by (vm_compute; reflexivity).
  assert (Hfiles : BasePublisher.get_filenames Sample.host "ny" None false None
                   = Ok [Sample.first_file; Sample.second_file;
                         Sample.third_file])
    by (vm_compute; reflexivity).
  destruct (publish_success_counts Sample.host Sample.quiet Sample.publisher
              "ny" None false [] (snd run) _ Hfiles Hrun)
    as (evs & Hevs & Hblocks & _).
  rewrite Hrun, Hevs. f_equal. cbn [app]. do 2 f_equal.
  change {| owner := "openelections";
            name := results_repo_name "ny" |} with Sample.repo in *.
  inversion Hblocks as [|? ? ? c1 t1 evs1 Htext1 Htree1 Hrest1]; subst.
  vm_compute in Htext1, Htree1.
  injection Htext1 as <-. injection Htree1 as <-.
  inversion Hrest1 as [|? ? ? c2 t2 evs2 Htext2 Htree2 Hrest2]; subst.
  vm_compute in Htext2, Htree2.
  injection Htext2 as <-. injection Htree2 as <-.
  inversion Hrest2 as [|? ? ? c3 t3 evs3 Htext3 Htree3 Hrest3]; subst.
  vm_compute in Htext3, Htree3.
  injection Htext3 as <-. injection Htree3 as <-.
  inversion Hrest3; subst.
  vm_compute. reflexivity.
Defined.

Lemma publish_nothing_still_merges_witness :
  publish Sample.host Sample.quiet Sample.publisher "zz" None false []
  = (Ok tt,
     [Login "user" "secret";
      GetRepository "openelections" "openelections-results-zz";
      Merge {| owner := "openelections"; name := "openelections-results-zz" |}
            "gh-pages" "master"]).
Proof.
  assert (Hfiles : BasePublisher.get_filenames Sample.host "zz" None false None
                   = Ok [])
    by (vm_compute; reflexivity).
  exact (publish_nothing_still_merges Sample.host Sample.quiet
           Sample.publisher "zz" None false [] Hfiles eq_refl eq_refl).
Defined.

Lemma publish_session_failure_witness :
  publish Sample.host Sample.locked_out Sample.publisher "ny" None false []
  = (Raise (ExternalError "refused"), [Login "user" "secret"]).
Proof.
  destruct (publish_session_failure Sample.host Sample.locked_out
              Sample.publisher "ny" None false []
              (ExternalError "refused"))
    as [Hlogin _].
  apply Hlogin. reflexivity.
Defined.

End FurtherSampleRuns.
